(** * Benchmark harness of the online-cinema research suite

    A shallow embedding of [research/src/suite.py] (class [TestSuite] and
    its result record) together with the properties of its producer/consumer
    pipeline, its rate limiter, its parallel fan-out and its orchestrator.

    Modelling conventions.
    - Python floats that hold times and durations are the exact rationals
      [Q] they denote; equalities between durations are therefore stated
      with [==].  The arithmetic on clock readings, delays and periods
      is idealised as exact, and what is stated of them are orderings
      and bounds; the mean the harness computes of the durations it is
      handed is rounded as binary64 arithmetic rounds it
      ([float_round]).
    - Python integers are [Z]; a Python tuple is the list of its fields.
    - Every method runs in a state-and-exception monad [M] over [St].  [St]
      holds the suite object ([self]), the store of [Queue] objects, the wall
      clock, the threads started so far and a chronological log of the
      observable operations.
    - What the harness only consumes (the storage clients, the data
      generator, the timing utility, the scheduler) is an environment [Env]
      of oracles indexed by the number of primitive operations performed so
      far: how much wall-clock time an operation takes, whether another
      thread writes the stop flag meanwhile, whether a backend call fails and
      which duration the timing utility reports.
    - Threads are started by recording them; [run_thread] lets the
      scheduler run one started thread to its end.  While a thread runs, the
      writes of the other threads to the stop flag reach it through the
      environment.  The workers of a pool run one after the other, in
      submission order. *)

From Stdlib Require Import String Bool ZArith QArith Qpower Qminmax Lqa Lia
  List.
Import ListNotations.

Set Implicit Arguments.

(** ** Python data *)

Inductive PyVal : Type :=
| PyStr (s : string)
| PyInt (z : Z).

(** A row is a tuple. *)
Definition Row : Type := list PyVal.

(** What travels on the shared queue: [Some row], or [None], the sentinel. *)
Definition QItem : Type := option Row.

Inductive PyExc : Type :=
| ValueError
| ZeroDivisionError
| RuntimeError
| BackendError (code : nat).

(** *** Floats

    A Python float is an IEEE 754 binary64 number and an arithmetic
    operation on floats returns the exact result rounded to the nearest
    such number, ties going to the even significand.  [float_round] is
    that rounding on the rationals, subnormal numbers included.  Results
    of magnitude [2 ^ 1024] and more, where binary64 has infinities, are
    outside the model: they are rounded as if the exponent range went
    on. *)

(** [(a / b) / 2 ^ k] as a fraction of integers. *)
Definition scale2 (a b k : Z) : Z * Z :=
  if (0 <=? k)%Z then (a, b * 2 ^ k)%Z else (a * 2 ^ (- k), b)%Z.

(** [n / d] rounded to the nearest integer, ties to even. *)
Definition round_half_even (n d : Z) : Z :=
  let q := (n / d)%Z in
  match (2 * (n mod d) ?= d)%Z with
  | Lt => q
  | Gt => (q + 1)%Z
  | Eq => if Z.even q then q else (q + 1)%Z
  end.

(** The binary exponent of [a / b]: the [e] with
    [2 ^ e <= a / b < 2 ^ (e + 1)]. *)
Definition binade (a b : positive) : Z :=
  let d := (Z.log2 (Zpos a) - Z.log2 (Zpos b))%Z in
  let (n, m) := scale2 (Zpos a) (Zpos b) d in
  if (m <=? n)%Z then d else (d - 1)%Z.

(** [m * 2 ^ k] *)
Definition times_pow2 (m k : Z) : Q :=
  if (0 <=? k)%Z then inject_Z (m * 2 ^ k) else m # Z.to_pos (2 ^ (- k)).

(** [a / b] rounded to 53 significant bits, and to a multiple of
    [2 ^ (-1074)] below [2 ^ (-1022)]. *)
Definition round_pos (a b : positive) : Q :=
  let k := Z.max (binade a b - 52) (-1074) in
  let (n, d) := scale2 (Zpos a) (Zpos b) k in
  times_pow2 (round_half_even n d) k.

Definition float_round (x : Q) : Q :=
  match Qnum (Qred x) with
  | Z0 => 0
  | Zpos a => round_pos a (Qden (Qred x))
  | Zneg a => - round_pos a (Qden (Qred x))
  end.

(** [x + y] and [x / y] on floats. *)
Definition float_add (x y : Q) : Q := float_round (x + y).

Definition float_div (x y : Q) : Q := float_round (x / y).

(** Outcome of a call: it returns, it raises, or it never returns (a
    [Queue.get] on a queue that stays empty). *)
Inductive Res (A : Type) : Type :=
| Ok (a : A)
| Raise (e : PyExc)
| Hang.

Arguments Ok {A} a.
Arguments Raise {A} e.
Arguments Hang {A}.

(** ** The storage client handle and the suite object *)

Record DBClient : Type := mkClient {
  handle : nat;
  dbms_name : string
}.

Record TestSuite : Type := mkSuite {
  clients : list DBClient;
  queue : nat;                      (* reference into the store of queues *)
  rows_count : Z;
  wps : Z;
  readers_count : Z;
  stress_tests_finished : bool
}.

Record TestResult : Type := mkResult {
  res_dbms_name : string;
  insert_100k_rows : Q;
  retrieve_last_timecode : Q;
  retrieve_most_viewed : Q;
  retrieve_last_timecode_under_load : Q;
  retrieve_most_viewed_under_load : Q;
  retrieve_last_timecode_in_parallel : Q;
  retrieve_most_viewed_in_parallel : Q
}.

(** A started thread: its target and arguments, until the scheduler has
    picked it; a thread runs once. *)
Inductive Thread : Type :=
| ProduceThread (data : list Row) (period : Q)
| ConsumeThread (client : DBClient)
| Scheduled.

(** Operations handed to the timing utility. *)
Inductive MeasOp : Type :=
| OpInsertData (rows : list Row)
| OpRetrieveLastTimecode (film_id user_id : PyVal)
| OpRetrieveMostViewed.

Inductive Event : Type :=
| EvTime (t : Q)                               (* time.time() returned t *)
| EvSleep (d : Q)                              (* time.sleep(d) was called *)
| EvFlag (b : bool)                            (* producer read the stop flag *)
| EvNewQueue (q : nat)                         (* Queue() *)
| EvPut (q : nat) (t : Q) (x : QItem)          (* put on queue q at time t *)
| EvGet (q : nat) (x : QItem)                  (* get from queue q *)
| EvCopy (template fresh : nat)                (* client.copy() *)
| EvConnect (h : nat)
| EvRelease (h : nat)
| EvPrepare (h : nat)
| EvInsert (h : nat) (rows : list Row)         (* client.insert_data(rows) *)
| EvMeasure (op : MeasOp) (h : nat) (repeats : option nat) (t : Q)
| EvPool (size : Z)                            (* ThreadPoolExecutor(size) *)
| EvSubmit (h : nat)                           (* one call submitted to the pool *)
| EvThreadStart (tid : nat) (t : Thread)
| EvYield (r : TestResult).

(** ** The environment and the state *)

(** What the suite does not control, as oracles indexed by the number of
    primitive operations the running thread has performed. *)
Record Env : Type := mkEnv {
  (* wall-clock time that passes while the operation runs, on top of what
     it asked for: scheduler latency, the overshoot of a sleep *)
  elapsed : nat -> Q;
  (* a write of [stress_tests_finished] by another thread, landing just
     before the operation *)
  poke : nat -> option bool;
  (* the exception with which the operation fails, when it is a call into
     a storage client or into the timing utility *)
  fault : nat -> option PyExc;
  (* the duration [measure_time] reports *)
  timing : nat -> Q;
  (* [data.test_data]: the rows generated by a call made at that point *)
  test_data : nat -> Z -> list Row
}.

Record St : Type := mkSt {
  self : TestSuite;                 (* the suite object *)
  clock : Q;                        (* the wall clock *)
  ops : nat;                        (* primitive operations performed *)
  queues : nat -> list QItem;       (* the store of [Queue] objects *)
  queue_count : nat;                (* how many have been created *)
  threads : list Thread;            (* threads started, by thread id *)
  log : list Event;                 (* what happened, oldest first *)
  next_handle : nat                 (* the next free client handle *)
}.

Definition M (A : Type) : Type := St -> Res A * St.

Definition ret {A} (a : A) : M A := fun s => (Ok a, s).

Definition raise {A} (e : PyExc) : M A := fun s => (Raise e, s).

Definition bind {A B} (m : M A) (k : A -> M B) : M B :=
  fun s =>
    match m s with
    | (Ok a, s1) => k a s1
    | (Raise e, s1) => (Raise e, s1)
    | (Hang, s1) => (Hang, s1)
    end.

Notation "x <- m ;; k" := (bind m (fun x => k))
  (at level 61, m at next level, right associativity).
Notation "m ;;; k" := (bind m (fun _ => k))
  (at level 61, right associativity).

(** Field updates. *)

Definition set_flag (b : bool) (t : TestSuite) : TestSuite :=
  mkSuite (clients t) (queue t) (rows_count t) (wps t) (readers_count t) b.

Definition set_clients (cs : list DBClient) (t : TestSuite) : TestSuite :=
  mkSuite cs (queue t) (rows_count t) (wps t) (readers_count t)
          (stress_tests_finished t).

Definition with_self (t : TestSuite) (s : St) : St :=
  mkSt t (clock s) (ops s) (queues s) (queue_count s) (threads s) (log s)
       (next_handle s).

Definition with_clock (c : Q) (s : St) : St :=
  mkSt (self s) c (ops s) (queues s) (queue_count s) (threads s) (log s)
       (next_handle s).

Definition with_queue (q : nat) (items : list QItem) (s : St) : St :=
  mkSt (self s) (clock s) (ops s)
       (fun r => if Nat.eqb r q then items else queues s r)
       (queue_count s) (threads s) (log s) (next_handle s).

Definition with_threads (ts : list Thread) (s : St) : St :=
  mkSt (self s) (clock s) (ops s) (queues s) (queue_count s) ts (log s)
       (next_handle s).

Definition with_next_handle (h : nat) (s : St) : St :=
  mkSt (self s) (clock s) (ops s) (queues s) (queue_count s) (threads s)
       (log s) h.

Definition emit (e : Event) (s : St) : St :=
  mkSt (self s) (clock s) (ops s) (queues s) (queue_count s) (threads s)
       (log s ++ [e]) (next_handle s).

Definition emit_all (es : list Event) (s : St) : St :=
  mkSt (self s) (clock s) (ops s) (queues s) (queue_count s) (threads s)
       (log s ++ es) (next_handle s).

Section Model.

Variable E : Env.

(** One primitive operation begins: the environment lets some time pass
    and possibly lets another thread write the stop flag. *)
Definition tick (s : St) : St :=
  mkSt (match poke E (ops s) with
        | Some b => set_flag b (self s)
        | None => self s
        end)
       (clock s + elapsed E (ops s))%Q
       (S (ops s))
       (queues s) (queue_count s) (threads s) (log s) (next_handle s).

(** *** Standard-library primitives *)

Definition time_time : M Q :=
  fun s => let s1 := tick s in (Ok (clock s1), emit (EvTime (clock s1)) s1).

(** [time.sleep] refuses a negative argument. *)
Definition time_sleep (d : Q) : M unit :=
  fun s =>
    if Qle_bool 0 d
    then let s1 := tick s in
         (Ok tt, emit (EvSleep d) (with_clock (clock s1 + d)%Q s1))
    else (Raise ValueError, s).

(** [Queue()]: a new, empty queue object. *)
Definition new_queue : M nat :=
  fun s =>
    let q := queue_count s in
    (Ok q,
     mkSt (self s) (clock s) (ops s)
          (fun r => if Nat.eqb r q then [] else queues s r)
          (S q) (threads s) (log s ++ [EvNewQueue q]) (next_handle s)).

(** [self.queue.put(x)] and [self.queue.put_nowait(x)]: the queue is
    unbounded, so neither blocks. *)
Definition queue_put (x : QItem) : M unit :=
  fun s =>
    let s1 := tick s in
    let q := queue (self s1) in
    (Ok tt, emit (EvPut q (clock s1) x) (with_queue q (queues s1 q ++ [x]) s1)).

(** Reading [self.stress_tests_finished]. *)
Definition get_stress_tests_finished : M bool :=
  fun s =>
    let s1 := tick s in
    let b := stress_tests_finished (self s1) in
    (Ok b, emit (EvFlag b) s1).

(** Reading an attribute of [self] that is set once, in [__init__]. *)
Definition get_self {A} (f : TestSuite -> A) : M A :=
  fun s => (Ok (f (self s)), s).

(** Writing [self.stress_tests_finished]. *)
Definition set_stress_tests_finished (b : bool) : M unit :=
  fun s => (Ok tt, with_self (set_flag b (self s)) s).

(** [threading.Thread(target=...).start()]: the thread is recorded; it
    runs when the scheduler picks it (see [run_thread]). *)
Definition start_thread (t : Thread) : M unit :=
  fun s =>
    (Ok tt,
     emit (EvThreadStart (length (threads s)) t)
          (with_threads (threads s ++ [t]) s)).

(** *** The storage client and the utilities, as the suite sees them

    The modules [client.base], [data] and [utils] are not among the
    sources; the suite only calls them. *)

(** Modelled from the spec: a call into a storage client or into the
    timing utility ("any operation may fail with a BackendError; the core
    does not catch or retry these").  It takes time and fails when the
    environment says so. *)
Definition external {A} (a : St -> A) (after : A -> St -> St) : M A :=
  fun s =>
    let s1 := tick s in
    match fault E (ops s) with
    | Some e => (Raise e, s1)
    | None => (Ok (a s1), after (a s1) s1)
    end.

(** Modelled from the spec: [client.copy()], the [clone()] of the Backend
    Contract, "returns an independent handle to the same backend". *)
Definition client_copy (c : DBClient) : M DBClient :=
  external
    (fun s => mkClient (next_handle s) (dbms_name c))
    (fun c' s =>
       emit (EvCopy (handle c) (handle c'))
            (with_next_handle (S (next_handle s)) s)).

(** Modelled from the spec: [client.prepare_database()], the [prepare()]
    of the Backend Contract. *)
Definition client_prepare_database (c : DBClient) : M unit :=
  external (fun _ => tt) (fun _ => emit (EvPrepare (handle c))).

(** Modelled from the spec: [client.insert_data(rows)], the
    [insertRows(sequence)] of the Backend Contract, "bulk-writes a lazy
    sequence of Rows". *)
Definition client_insert_data (c : DBClient) (rows : list Row) : M unit :=
  external (fun _ => tt) (fun _ => emit (EvInsert (handle c) rows)).

(** Modelled from the spec: [with client.connect(): body], "scoped
    acquisition of a connection with guaranteed release on all exit
    paths". *)
Definition with_connect {A} (c : DBClient) (body : M A) : M A :=
  fun s =>
    match external (fun _ => tt) (fun _ => emit (EvConnect (handle c))) s with
    | (Ok _, s1) =>
        match body s1 with
        | (Hang, s2) => (Hang, s2)
        | (r, s2) => (r, emit (EvRelease (handle c)) s2)
        end
    | (Raise e, s1) => (Raise e, s1)
    | (Hang, s1) => (Hang, s1)
    end.

(** Modelled from the spec: [measure_time(op, ..., repeats=n)] of the
    Timing Utility, "runs an operation a fixed number of times and returns
    elapsed time"; [repeats] is [None] where the call leaves it to the
    utility's default. *)
Definition measure_time (op : MeasOp) (c : DBClient) (repeats : option nat)
  : M Q :=
  external (fun s => timing E (ops s))
           (fun t => emit (EvMeasure op (handle c) repeats t)).

(** Modelled from the spec: [test_data(n)] of the Workload Generator,
    "a lazy, finite sequence of synthetic rows", each call a fresh one. *)
Definition gen_test_data (n : Z) : M (list Row) :=
  fun s => (Ok (test_data E (ops s) n), s).

(** ** [TestSuite] *)

(** [__init__] *)
Definition TestSuite_init (rows wps_ readers : Z) : M unit :=
  q <- new_queue ;;
  fun s => (Ok tt, with_self (mkSuite [] q rows wps_ readers false) s).

(** [register] *)
Definition register (client : DBClient) : M unit :=
  fun s =>
    (Ok tt, with_self (set_clients (clients (self s) ++ [client]) (self s)) s).

(** [iter_queue], run on the values the queue holds: the rows yielded and
    how the generator ends ([Ok rest]: it returned, leaving [rest] on the
    queue; [Hang]: it is blocked in [get] on the emptied queue). *)
Fixpoint iter_queue (q : list QItem) : list Row * Res (list QItem) :=
  match q with
  | [] => ([], Hang)
  | None :: rest => ([], Ok rest)
  | Some row :: rest =>
      let (ys, r) := iter_queue rest in (row :: ys, r)
  end.

(** The values [iter_queue] takes off the queue. *)
Fixpoint values_read (q : list QItem) : list QItem :=
  match q with
  | [] => []
  | None :: _ => [None]
  | Some row :: rest => Some row :: values_read rest
  end.

(** Modelled from the spec: [client.insert_data(data=self.iter_queue())],
    the client's bulk write iterating the generator of [iter_queue] to its
    end. *)
Definition insert_data_from_queue (c : DBClient) : M unit :=
  fun s =>
    let s1 := tick s in
    match fault E (ops s) with
    | Some e => (Raise e, s1)
    | None =>
        let q := queue (self s1) in
        let items := queues s1 q in
        let (rows, r) := iter_queue items in
        let s2 := emit_all (map (EvGet q) (values_read items)) s1 in
        match r with
        | Ok rest =>
            (Ok tt, emit (EvInsert (handle c) rows) (with_queue q rest s2))
        | Raise e => (Raise e, s2)
        | Hang =>
            (Hang, emit (EvInsert (handle c) rows) (with_queue q [] s2))
        end
    end.

(** [consume] *)
Definition consume (client : DBClient) : M unit :=
  with_connect client (insert_data_from_queue client).

(** [sleep_time > 0 and sleep_time or 0] *)
Definition clamp_sleep (sleep_time : Q) : Q :=
  if negb (Qle_bool sleep_time 0)
  then (if Qeq_bool sleep_time 0 then 0 else sleep_time)
  else 0.

(** The [for row in data] loop of [produce]. *)
Fixpoint produce_loop (period : Q) (data : list Row) (next_produce : Q)
  : M unit :=
  match data with
  | [] => ret tt
  | row :: rest =>
      stop <- get_stress_tests_finished ;;
      if stop : bool then ret tt
      else
        queue_put (Some row) ;;;
        (let next_produce := (next_produce + period)%Q in
         now <- time_time ;;
         (let sleep_time := (next_produce - now)%Q in
          time_sleep (clamp_sleep sleep_time) ;;;
          produce_loop period rest next_produce))
  end.

(** [produce] *)
Definition produce (data : list Row) (period : Q) : M unit :=
  next_produce <- time_time ;;
  produce_loop period data next_produce ;;;
  queue_put None.

(** [prepare_database] *)
Definition prepare_database (client : DBClient) (initial_data : list Row)
  : M unit :=
  with_connect client
    (client_prepare_database client ;;;
     client_insert_data client initial_data) ;;;
  time_sleep 1.

(** [run_static_tests] *)
Definition run_static_tests (client : DBClient) (film_id user_id : PyVal)
  : M (Q * Q * Q) :=
  with_connect client
    (data <- gen_test_data 100000 ;;
     t1 <- measure_time (OpInsertData data) client None ;;
     time_sleep 1 ;;;
     t2 <- measure_time (OpRetrieveLastTimecode film_id user_id) client
             (Some 100%nat) ;;
     t3 <- measure_time OpRetrieveMostViewed client (Some 100%nat) ;;
     ret (t1, t2, t3)).

(** [1 / self.wps] *)
Definition py_truediv_one (n : Z) : M Q :=
  if Z.eqb n 0 then raise ZeroDivisionError else ret (1 / inject_Z n)%Q.

(** [run_stress_tests] *)
Definition run_stress_tests (client : DBClient) (film_id user_id : PyVal)
  : M (Q * Q) :=
  let max_producing_time := 10%Z in
  data <- (w <- get_self wps ;; gen_test_data (max_producing_time * w)) ;;
  period <- (w <- get_self wps ;; py_truediv_one w) ;;
  let producer_thread := ProduceThread data period in
  consumer_client <- client_copy client ;;
  let consumer_thread := ConsumeThread consumer_client in
  set_stress_tests_finished false ;;;
  start_thread producer_thread ;;;
  start_thread consumer_thread ;;;
  time_sleep 1 ;;;
  r <- with_connect client
         (t1 <- measure_time (OpRetrieveLastTimecode film_id user_id) client
                  (Some 100%nat) ;;
          t2 <- measure_time OpRetrieveMostViewed client (Some 100%nat) ;;
          ret (t1, t2)) ;;
  set_stress_tests_finished true ;;;
  ret r.

(** [measure_retrieve_last_timecode] *)
Definition measure_retrieve_last_timecode (film_id user_id : PyVal)
  (client : DBClient) : M Q :=
  with_connect client
    (measure_time (OpRetrieveLastTimecode film_id user_id) client
       (Some 100%nat)).

(** [measure_retrieve_most_viewed] *)
Definition measure_retrieve_most_viewed (client : DBClient) : M Q :=
  with_connect client (measure_time OpRetrieveMostViewed client (Some 100%nat)).

(** [[client.copy() for _ in range(threads_count)]] *)
Fixpoint copy_clients (client : DBClient) (n : nat) : M (list DBClient) :=
  match n with
  | O => ret []
  | S n' =>
      c <- client_copy client ;;
      cs <- copy_clients client n' ;;
      ret (c :: cs)
  end.

(** [ThreadPoolExecutor(threads_count)] *)
Definition new_pool (threads_count : Z) : M unit :=
  if (threads_count <=? 0)%Z then raise ValueError
  else (fun s => (Ok tt, emit (EvPool threads_count) s)).

(** [pool.map(client_method, clients)] followed by the exit of the [with]
    block, which waits for every worker: each call is submitted and runs
    to its end, and its outcome is kept in its future.  The executor runs
    the calls concurrently; here they run one after the other in
    submission order, which is one of the schedules.  What is proved of a
    fan-out is stated so as not to depend on the schedule: how many
    copies, submissions and results there are, which outcome is
    reported, and what happens on each handle taken on its own. *)
Fixpoint pool_map (client_method : DBClient -> M Q) (cs : list DBClient)
  : St -> list (Res Q) * St :=
  fun s =>
    match cs with
    | [] => ([], s)
    | c :: cs' =>
        let (r, s1) := client_method c (emit (EvSubmit (handle c)) s) in
        let (rs, s2) := pool_map client_method cs' s1 in
        (r :: rs, s2)
    end.

(** [list(results)]: the futures are read in submission order; the first
    one that holds an exception raises it. *)
Fixpoint list_results (rs : list (Res Q)) : Res (list Q) :=
  match rs with
  | [] => Ok []
  | Ok t :: rs' =>
      match list_results rs' with
      | Ok ts => Ok (t :: ts)
      | Raise e => Raise e
      | Hang => Hang
      end
  | Raise e :: _ => Raise e
  | Hang :: _ => Hang
  end.

(** A worker that never returns keeps the pool's shutdown waiting. *)
Definition any_hang (rs : list (Res Q)) : bool :=
  existsb (fun r => match r with Hang => true | _ => false end) rs.

(** [run_in_parallel] *)
Definition run_in_parallel (client : DBClient)
  (client_method : DBClient -> M Q) (threads_count : Z) : M (list Q) :=
  cs <- copy_clients client (Z.to_nat threads_count) ;;
  new_pool threads_count ;;;
  fun s =>
    let (results, s1) := pool_map client_method cs s in
    if any_hang results then (Hang, s1) else (list_results results, s1).

(** [sum(r)]: the builtin adds the floats to [0] from left to right, each
    addition a float addition (the plain summation of CPython up to
    3.11; from 3.12 on [sum] compensates its roundings and is at least
    as close to the exact sum). *)
Definition py_sum (r : list Q) : Q := fold_left float_add r 0%Q.

(** [sum(r) / self.readers_count]: a float divided by an integer, a
    float division. *)
Definition py_truediv (x : Q) (n : Z) : M Q :=
  if Z.eqb n 0 then raise ZeroDivisionError
  else ret (float_div x (inject_Z n)).

(** [run_parallel_read_tests] *)
Definition run_parallel_read_tests (client : DBClient)
  (film_id user_id : PyVal) : M (Q * Q) :=
  r1 <- (n <- get_self readers_count ;;
         run_in_parallel client
           (measure_retrieve_last_timecode film_id user_id) n) ;;
  t1 <- (n <- get_self readers_count ;; py_truediv (py_sum r1) n) ;;
  r2 <- (n <- get_self readers_count ;;
         run_in_parallel client measure_retrieve_most_viewed n) ;;
  t2 <- (n <- get_self readers_count ;; py_truediv (py_sum r2) n) ;;
  ret (t1, t2).

(** [next(initial_data)] inside the generator [run]: exhaustion surfaces
    as [RuntimeError]. *)
Definition py_next (data : list Row) : M (Row * list Row) :=
  match data with
  | [] => raise RuntimeError
  | row :: rest => ret (row, rest)
  end.

(** [film_id, user_id, *_ = row] *)
Definition unpack_ids (row : Row) : M (PyVal * PyVal) :=
  match row with
  | film_id :: user_id :: _ => ret (film_id, user_id)
  | _ => raise ValueError
  end.

(** The body of the loop of [run], for one client. *)
Definition run_client (client : DBClient) : M TestResult :=
  n <- get_self rows_count ;;
  initial_data <- gen_test_data n ;;
  first <- py_next initial_data ;;
  ids <- unpack_ids (fst first) ;;
  let initial_data := snd first in
  let film_id := fst ids in
  let user_id := snd ids in
  prepare_database client initial_data ;;;
  static_tests_result <- run_static_tests client film_id user_id ;;
  stress_tests_result <- run_stress_tests client film_id user_id ;;
  parallel_read_tests_result <-
    run_parallel_read_tests client film_id user_id ;;
  let '(t1, t2, t3) := static_tests_result in
  let '(t4, t5) := stress_tests_result in
  let '(t6, t7) := parallel_read_tests_result in
  ret (mkResult (dbms_name client) t1 t2 t3 t4 t5 t6 t7).

(** [yield] *)
Definition yield (r : TestResult) : M unit :=
  fun s => (Ok tt, emit (EvYield r) s).

Fixpoint run_clients (cs : list DBClient) : M (list TestResult) :=
  match cs with
  | [] => ret []
  | client :: cs' =>
      r <- run_client client ;;
      yield r ;;;
      rs <- run_clients cs' ;;
      ret (r :: rs)
  end.

(** [run], iterated to its end. *)
Definition run : M (list TestResult) :=
  fun s => run_clients (clients (self s)) s.

(** The body of a started thread, and the scheduler running one started
    thread to its end. *)
Definition thread_body (t : Thread) : M unit :=
  match t with
  | ProduceThread data period => produce data period
  | ConsumeThread client => consume client
  | Scheduled => ret tt
  end.

Fixpoint mark_scheduled (tid : nat) (ts : list Thread) : list Thread :=
  match ts, tid with
  | [], _ => []
  | _ :: ts', O => Scheduled :: ts'
  | t :: ts', S tid' => t :: mark_scheduled tid' ts'
  end.

Definition run_thread (tid : nat) : M unit :=
  fun s =>
    match nth_error (threads s) tid with
    | Some t =>
        thread_body t (with_threads (mark_scheduled tid (threads s)) s)
    | None => (Ok tt, s)
    end.

End Model.

(** ** Vocabulary of the properties *)

Definition is_sentinel (x : QItem) : bool :=
  match x with
  | None => true
  | Some _ => false
  end.

Definition count_sentinels (l : list QItem) : nat :=
  List.length (filter is_sentinel l).

(** What a call left on the queue it was reading. *)
Definition left_on_queue (r : Res (list QItem)) : list QItem :=
  match r with
  | Ok rest => rest
  | _ => []
  end.

Definition returns {A} (r : Res A) : Prop := exists a, r = Ok a.

(** The events a call appended to the log. *)
Definition new_events {A} (m : M A) (s : St) : list Event :=
  skipn (List.length (log s)) (log (snd (m s))).

(** Projections of a trace. *)
Fixpoint puts (tr : list Event) : list QItem :=
  match tr with
  | [] => []
  | EvPut _ _ x :: tr' => x :: puts tr'
  | _ :: tr' => puts tr'
  end.

(** The rows put, each with the time of its emission. *)
Fixpoint emissions (tr : list Event) : list (Q * Row) :=
  match tr with
  | [] => []
  | EvPut _ t (Some row) :: tr' => (t, row) :: emissions tr'
  | _ :: tr' => emissions tr'
  end.

Fixpoint sleeps (tr : list Event) : list Q :=
  match tr with
  | [] => []
  | EvSleep d :: tr' => d :: sleeps tr'
  | _ :: tr' => sleeps tr'
  end.

Fixpoint clock_reads (tr : list Event) : list Q :=
  match tr with
  | [] => []
  | EvTime t :: tr' => t :: clock_reads tr'
  | _ :: tr' => clock_reads tr'
  end.

Fixpoint flag_reads (tr : list Event) : list bool :=
  match tr with
  | [] => []
  | EvFlag b :: tr' => b :: flag_reads tr'
  | _ :: tr' => flag_reads tr'
  end.

(** What the producer does that is visible from outside, in order. *)
Inductive Act : Type :=
| ActEmit (x : QItem)
| ActSleep (d : Q).

Fixpoint acts (tr : list Event) : list Act :=
  match tr with
  | [] => []
  | EvPut _ _ x :: tr' => ActEmit x :: acts tr'
  | EvSleep d :: tr' => ActSleep d :: acts tr'
  | _ :: tr' => acts tr'
  end.

(** Row after row, each followed by its sleep. *)
Fixpoint emit_then_sleep (rows : list Row) (ds : list Q) : list Act :=
  match rows, ds with
  | row :: rows', d :: ds' =>
      ActEmit (Some row) :: ActSleep d :: emit_then_sleep rows' ds'
  | _, _ => []
  end.




Definition no_fault (E : Env) : Prop := forall n, fault E n = None.

(** Another thread sets the stop flag while the running thread performs its
    operation number [n0], and nobody resets it afterwards. *)
Definition signal_set_at (E : Env) (n0 : nat) : Prop :=
  poke E n0 = Some true /\
  forall n, (n0 < n)%nat -> poke E n <> Some false.

(** Once operation [n0] is behind, the flag is up. *)
Definition armed (n0 : nat) (s : St) : Prop :=
  (n0 < ops s)%nat -> stress_tests_finished (self s) = true.

(** How many of the emissions fall at or before a deadline. *)
Definition emitted_by (deadline : Q) (ems : list (Q * Row)) : nat :=
  List.length (filter (fun e => Qle_bool (fst e) deadline) ems).


(** *** The producer's loop, iteration by iteration *)

(** The state after one full iteration of the loop of [produce] that found
    the stop flag unset. *)
Definition iter_state (E : Env) (period : Q) (row : Row) (np : Q) (s : St)
  : St :=
  let s1 := emit (EvFlag false) (tick E s) in
  let s2 := tick E s1 in
  let q := queue (self s2) in
  let s3 :=
    tick E (emit (EvPut q (clock s2) (Some row))
                 (with_queue q (queues s2 q ++ [Some row]) s2)) in
  let d := clamp_sleep (np + period - clock s3) in
  let s4 := tick E (emit (EvTime (clock s3)) s3) in
  emit (EvSleep d) (with_clock (clock s4 + d)%Q s4).

(** The runs of the loop, as a relation between the schedule variable
    [np], the clock at entry, the remaining input, the events appended and
    the clock at exit.  [P] is what is known of every delay the
    environment inserts. *)
Inductive loop_run (P : Q -> Prop) (q : nat) (period : Q)
  : Q -> Q -> list Row -> list Event -> Q -> Prop :=
| run_done np c :
    loop_run P q period np c [] [] c
| run_stop np c d row rest :
    P d ->
    loop_run P q period np c (row :: rest) [EvFlag true] (c + d)
| run_iter np c d1 d2 d3 d4 row rest evs c' :
    P d1 -> P d2 -> P d3 -> P d4 ->
    loop_run P q period (np + period)
             (c + d1 + d2 + d3 + d4
              + clamp_sleep (np + period - (c + d1 + d2 + d3)))
             rest evs c' ->
    loop_run P q period np c (row :: rest)
             (EvFlag false
              :: EvPut q (c + d1 + d2) (Some row)
              :: EvTime (c + d1 + d2 + d3)
              :: EvSleep (clamp_sleep (np + period - (c + d1 + d2 + d3)))
              :: evs)
             c'.

(** The suite's configuration, everything but the stop flag. *)
Definition same_config (t t' : TestSuite) : Prop :=
  clients t' = clients t /\ queue t' = queue t /\
  rows_count t' = rows_count t /\ wps t' = wps t /\
  readers_count t' = readers_count t.

(** What a thread that only uses the suite's queue leaves untouched. *)
Definition same_frame (s s' : St) : Prop :=
  same_config (self s) (self s') /\
  queue_count s' = queue_count s /\
  threads s' = threads s /\
  next_handle s' = next_handle s /\
  (forall r, r <> queue (self s) -> queues s' r = queues s r).

(** *** Two claims, as the specification words them *)

(** The claim of a queue of its own for each stress test: the call
    creates a queue object. *)
Definition creates_its_own_queue (E : Env) (c : DBClient) (f u : PyVal)
  (s : St) : Prop :=
  (queue_count s < queue_count (snd (run_stress_tests E c f u s)))%nat.



(** *** Relations carried through the methods *)

Definition steps {A} (R : St -> St -> Prop) (m : M A) : Prop :=
  forall s, R s (snd (m s)).

Record Footstep (E : Env) (okev : Event -> Prop) (R : St -> St -> Prop)
  : Prop := mkFootstep {
  fs_refl : forall s, R s s;
  fs_trans : forall s1 s2 s3, R s1 s2 -> R s2 s3 -> R s1 s3;
  fs_tick : forall s, R s (tick E s);
  fs_emit : forall e s, okev e -> R s (emit e s);
  fs_clock : forall c s, R s (with_clock c s);
  fs_flag : forall b s, R s (with_self (set_flag b (self s)) s);
  fs_handle : forall h s, R s (with_next_handle h s);
  fs_threads :
    forall t s,
      okev (EvThreadStart (List.length (threads s)) t) ->
      R s (emit (EvThreadStart (List.length (threads s)) t)
                (with_threads (threads s ++ [t]) s))
}.

(** The events of the orchestrating thread that carry no datum of
    interest. *)
Definition harmless (e : Event) : Prop :=
  match e with
  | EvTime _ | EvSleep _ | EvConnect _ | EvRelease _ | EvPrepare _
  | EvPool _ | EvSubmit _ | EvCopy _ _ | EvThreadStart _ _ | EvYield _
  | EvMeasure (OpInsertData _) _ _ _
  | EvMeasure OpRetrieveMostViewed _ _ _ => True
  | _ => False
  end.

(** The log only grows, and by events that satisfy [P]. *)
Definition emits (P : Event -> Prop) (s s' : St) : Prop :=
  exists evs, log s' = log s ++ evs /\ Forall P evs.

(** The suite keeps its queue object, no queue is created, and the
    contents of every queue are left alone. *)
Definition keeps_queues (s s' : St) : Prop :=
  queue (self s') = queue (self s) /\
  queue_count s' = queue_count s /\
  queues s' = queues s.

(** The configuration of the suite stays what [__init__] made it. *)
Definition keeps_config (s s' : St) : Prop := same_config (self s) (self s').

(** *** The fan-out *)

(** The events of the fan-out itself. *)
Definition fan_out_event (e : Event) : bool :=
  match e with
  | EvCopy _ _ | EvPool _ | EvSubmit _ => true
  | _ => false
  end.

(** A measurement function leaves the fan-out's bookkeeping alone. *)
Definition measures_only (client_method : DBClient -> M Q) : Prop :=
  forall c, steps (emits (fun e => fan_out_event e = false)) (client_method c).

(** The handles [next_handle], [next_handle + 1], ... given to clones. *)
Fixpoint clones_of (c : DBClient) (h : nat) (n : nat) : list DBClient :=
  match n with
  | O => []
  | S n' => mkClient h (dbms_name c) :: clones_of c (S h) n'
  end.


Definition nat_Q (n : nat) : Q := inject_Z (Z.of_nat n).

(** The same mean computed on floats: the durations added to [0] from
    left to right, the sum divided by the count, each operation rounded. *)
Definition float_mean (r : list Q) : Q :=
  float_div (fold_left float_add r 0%Q) (nat_Q (List.length r)).



(** The unit roundoff of binary64, [2 ^ (-53)], and its smallest positive
    normal number. *)
Definition float_eps : Q := 1 # 9007199254740992.






(** The floats nearest to 0.1, 0.2 and 0.3, and to 0.01, 0.02 and
    0.03. *)
Definition float_0_1 : Q := 3602879701896397 # 36028797018963968.

Definition float_0_2 : Q := 3602879701896397 # 18014398509481984.

Definition float_0_3 : Q := 5404319552844595 # 18014398509481984.




(** The first failure among the outcomes, in submission order. *)
Fixpoint first_failure (rs : list (Res Q)) : option PyExc :=
  match rs with
  | [] => None
  | Raise e :: _ => Some e
  | _ :: rs' => first_failure rs'
  end.

(** *** The orchestrator *)

(** What the orchestrating thread may log while it runs one client whose
    initial data, less its first row, is [tail] and whose identifiers are
    [f] and [u]. *)
Definition run_event (c : DBClient) (tail : list Row) (f u : PyVal)
  (e : Event) : Prop :=
  match e with
  | EvInsert h rows => h = handle c /\ rows = tail
  | EvMeasure (OpRetrieveLastTimecode f' u') _ _ _ => f' = f /\ u' = u
  | EvMeasure _ _ _ _ => True
  | EvNewQueue _ | EvPut _ _ _ | EvGet _ _ | EvFlag _ => False
  | _ => True
  end.

(** No thread is started. *)
Definition keeps_threads (s s' : St) : Prop := threads s' = threads s.

Definition not_thread_start (e : Event) : Prop :=
  match e with
  | EvThreadStart _ _ => False
  | _ => True
  end.

(** What [run_stress_tests] does after it has started its two threads. *)
Definition stress_measurements (E : Env) (client : DBClient)
  (film_id user_id : PyVal) : M (Q * Q) :=
  time_sleep E 1 ;;;
  r <- with_connect E client
         (t1 <- measure_time E (OpRetrieveLastTimecode film_id user_id)
                  client (Some 100%nat) ;;
          t2 <- measure_time E OpRetrieveMostViewed client (Some 100%nat) ;;
          ret (t1, t2)) ;;
  set_stress_tests_finished true ;;;
  ret r.

Definition not_new_queue (e : Event) : Prop :=
  match e with
  | EvNewQueue _ => False
  | _ => True
  end.

(** *** Concrete inputs *)

Definition sample_row (n : Z) : Row :=
  [PyStr "film"; PyStr "user"; PyInt n].

Fixpoint rows_from (i : Z) (n : nat) : list Row :=
  match n with
  | O => []
  | S n' => sample_row i :: rows_from (i + 1) n'
  end.

Definition sample_data (call : nat) (n : Z) : list Row :=
  rows_from (Z.of_nat call * 1000) (Z.to_nat n).

(** Nothing takes time, nobody interferes, nothing fails. *)
Definition calm_env : Env :=
  mkEnv (fun _ => 0%Q) (fun _ => None) (fun _ => None)
        (fun n => inject_Z (Z.of_nat n)) sample_data.


(** The world before any suite exists: no queue, no thread, an empty log;
    handles from 300 on are free. *)
Definition empty_world : St :=
  mkSt (mkSuite [] 0 0 0 0 false) 0 0 (fun _ => []) 0 [] [] 300.

Definition postgres : DBClient := mkClient 100 "postgres".

(** [suite = TestSuite(rows, wps, readers)] followed by
    [suite.register(c)] for each client. *)
Definition suite_with (rows wps_ readers : Z) (cs : list DBClient) : St :=
  snd ((TestSuite_init rows wps_ readers ;;;
        fold_right (fun c m => register c ;;; m) (ret tt) cs)
         empty_world).

(** The backend call made by the running thread's operation number 6
    fails. *)
Definition faulty_env : Env :=
  mkEnv (fun _ => 0%Q) (fun _ => None)
        (fun n => if Nat.eqb n 6 then Some (BackendError 1) else None)
        (fun n => inject_Z (Z.of_nat n)) sample_data.


(** The fifth primitive operation fails. *)
Definition flaky_env : Env :=
  mkEnv (fun _ => 0%Q) (fun _ => None)
        (fun n => if Nat.eqb n 4 then Some (BackendError 1) else None)
        (fun n => inject_Z (Z.of_nat n)) sample_data.

(** ** Runs of the whole suite *)


(** The events of a phase other than the start of a thread and the yield
    of a record. *)
Definition quiet_event (e : Event) : Prop :=
  match e with
  | EvTime _ | EvSleep _ | EvConnect _ | EvRelease _ | EvPrepare _
  | EvPool _ | EvSubmit _ | EvCopy _ _
  | EvMeasure (OpInsertData _) _ _ _
  | EvMeasure OpRetrieveMostViewed _ _ _ => True
  | _ => False
  end.

(** The records yielded, in order. *)
Fixpoint yields (tr : list Event) : list TestResult :=
  match tr with
  | [] => []
  | EvYield r :: tr' => r :: yields tr'
  | _ :: tr' => yields tr'
  end.

Definition not_yield (e : Event) : Prop :=
  match e with
  | EvYield _ => False
  | _ => True
  end.

(** What the suite needs of its configuration and of the generator for a
    run to go through. *)
Definition runnable (t : TestSuite) : Prop :=
  (1 <= rows_count t)%Z /\ wps t <> 0%Z /\ (1 <= readers_count t)%Z.

Definition generates_rows (E : Env) : Prop :=
  forall k n, (1 <= n)%Z ->
    exists f u more tail, test_data E k n = (f :: u :: more) :: tail.

(** [m] returns, from every state. *)
Definition succeeds {A} (m : M A) : Prop := forall s, returns (fst (m s)).

(** No other thread writes the stop flag. *)
Definition undisturbed (E : Env) : Prop := forall n, poke E n = None.

(** ** Connection scopes *)

(** What may happen on handle [h] while its connection is open. *)
Definition inside_ok (h : nat) (e : Event) : Prop :=
  match e with
  | EvPrepare h' | EvInsert h' _ | EvMeasure _ h' _ _ => h' = h
  | EvSleep _ => True
  | _ => False
  end.

(** What may happen while no connection is open: nothing that needs
    one. *)
Definition outside_ok (e : Event) : Prop :=
  match e with
  | EvSleep _ | EvCopy _ _ | EvPool _ | EvSubmit _ | EvThreadStart _ _
  | EvYield _ => True
  | _ => False
  end.

(** A trace of a single thread of control in which every database
    operation lies in a connection scope of its own handle, scopes do not
    nest, and every scope is closed. *)
Inductive scoped : list Event -> Prop :=
| scoped_nil : scoped []
| scoped_outside e evs :
    outside_ok e -> scoped evs -> scoped (e :: evs)
| scoped_connection h body evs :
    Forall (inside_ok h) body -> scoped evs ->
    scoped (EvConnect h :: body ++ EvRelease h :: evs).

Definition in_scopes (s s' : St) : Prop :=
  exists evs, log s' = log s ++ evs /\ scoped evs.

Definition never_hangs {A} (m : M A) : Prop := forall s, fst (m s) <> Hang.

(** The handle an event is about, for the events that are about one. *)
Definition handle_of (e : Event) : option nat :=
  match e with
  | EvConnect h | EvRelease h | EvPrepare h | EvInsert h _
  | EvMeasure _ h _ _ => Some h
  | _ => None
  end.

(** What happens on handle [h], in order. *)
Definition on_handle (h : nat) (tr : list Event) : list Event :=
  filter (fun e => match handle_of e with
                   | Some h' => Nat.eqb h' h
                   | None => false
                   end) tr.

Definition database_op (h : nat) (e : Event) : Prop :=
  match e with
  | EvPrepare h' | EvInsert h' _ | EvMeasure _ h' _ _ => h' = h
  | _ => False
  end.

(** The life of one handle: a sequence of sessions, each a [connect], the
    database operations made on the handle, and the [release]. *)
Inductive sessions (h : nat) : list Event -> Prop :=
| sessions_nil : sessions h []
| sessions_cons body evs :
    Forall (database_op h) body -> sessions h evs ->
    sessions h (EvConnect h :: body ++ EvRelease h :: evs).

(** ** The consumer's drain loop *)

Lemma iter_queue_split (q : list QItem) :
  q = values_read q ++ left_on_queue (snd (iter_queue q)).
Proof.
  induction q as [|[row|] rest IH]; simpl; try reflexivity.
  destruct (iter_queue rest) as [ys r]; simpl in *.
  now rewrite <- IH.
Qed.

Lemma iter_queue_no_raise (q : list QItem) (e : PyExc) :
  snd (iter_queue q) <> Raise e.
Proof.
  induction q as [|[row|] rest IH]; simpl; try discriminate.
  destruct (iter_queue rest) as [ys r]; simpl in *; exact IH.
Qed.

Lemma iter_queue_values_read (q : list QItem) :
  values_read q =
  map Some (fst (iter_queue q)) ++
  match snd (iter_queue q) with
  | Ok _ => [None]
  | _ => []
  end.
Proof.
  induction q as [|[row|] rest IH]; simpl; try reflexivity.
  destruct (iter_queue rest) as [ys r]; simpl in *.
  now rewrite IH.
Qed.

Lemma count_sentinels_rows (rows : list Row) (tl : list QItem) :
  count_sentinels (map Some rows ++ tl) = count_sentinels tl.
Proof.
  unfold count_sentinels.
  induction rows as [|row rows IH]; simpl; auto.
Qed.

Lemma iter_queue_returns (q : list QItem) (rest : list QItem) :
  snd (iter_queue q) = Ok rest ->
  q = map Some (fst (iter_queue q)) ++ None :: rest.
Proof.
  intros H.
  rewrite (iter_queue_split q) at 1.
  rewrite iter_queue_values_read, H; simpl.
  now rewrite <- app_assoc.
Qed.

(** ** The rate-limited producer *)

Lemma same_config_refl t : same_config t t.
Proof. repeat split. Qed.

Lemma same_config_trans t1 t2 t3 :
  same_config t1 t2 -> same_config t2 t3 -> same_config t1 t3.
Proof. unfold same_config; intuition congruence. Qed.

Lemma same_config_set_flag b t : same_config t (set_flag b t).
Proof. repeat split. Qed.

Lemma same_frame_refl s : same_frame s s.
Proof. repeat split. Qed.

Lemma same_frame_trans s1 s2 s3 :
  same_frame s1 s2 -> same_frame s2 s3 -> same_frame s1 s3.
Proof.
  intros (C1 & Q1 & T1 & H1 & F1) (C2 & Q2 & T2 & H2 & F2).
  assert (Hq : queue (self s2) = queue (self s1)) by apply C1.
  repeat split; try (unfold same_config in *; intuition congruence).
  intros r Hr. rewrite F2, F1; auto. now rewrite Hq.
Qed.

Lemma clamp_sleep_nonneg (x : Q) : (0 <= clamp_sleep x)%Q.
Proof.
  unfold clamp_sleep.
  destruct (Qle_bool x 0) eqn:Hle; simpl; [lra|].
  destruct (Qeq_bool x 0); [lra|].
  destruct (Qlt_le_dec 0 x) as [H|H]; [lra|].
  apply Qle_bool_iff in H. congruence.
Qed.


Lemma clamp_sleep_accepted (x : Q) : Qle_bool 0 (clamp_sleep x) = true.
Proof. apply Qle_bool_iff, clamp_sleep_nonneg. Qed.

Lemma skipn_length_app {A} (l l' : list A) :
  skipn (List.length l) (l ++ l') = l'.
Proof. induction l; simpl; auto. Qed.

(** [tick] touches the clock, the operation counter and the stop flag. *)

Lemma tick_clock E s : clock (tick E s) = (clock s + elapsed E (ops s))%Q.
Proof. reflexivity. Qed.

Lemma tick_ops E s : ops (tick E s) = S (ops s).
Proof. reflexivity. Qed.

Lemma tick_log E s : log (tick E s) = log s.
Proof. reflexivity. Qed.

Lemma tick_queues E s : queues (tick E s) = queues s.
Proof. reflexivity. Qed.

Lemma tick_queue_count E s : queue_count (tick E s) = queue_count s.
Proof. reflexivity. Qed.

Lemma tick_threads E s : threads (tick E s) = threads s.
Proof. reflexivity. Qed.

Lemma tick_next_handle E s : next_handle (tick E s) = next_handle s.
Proof. reflexivity. Qed.

Lemma tick_config E s : same_config (self s) (self (tick E s)).
Proof. unfold tick; simpl. destruct (poke E (ops s)); repeat split. Qed.

Lemma tick_queue E s : queue (self (tick E s)) = queue (self s).
Proof. apply tick_config. Qed.

Lemma tick_flag E s :
  stress_tests_finished (self (tick E s))
  = match poke E (ops s) with
    | Some b => b
    | None => stress_tests_finished (self s)
    end.
Proof. unfold tick; simpl. now destruct (poke E (ops s)). Qed.

Lemma tick_armed E n0 s :
  signal_set_at E n0 -> armed n0 s -> armed n0 (tick E s).
Proof.
  intros [Hset Hkeep] Harmed Hlt.
  rewrite tick_flag. rewrite tick_ops in Hlt.
  destruct (Nat.eq_dec (ops s) n0) as [->|Hne].
  - now rewrite Hset.
  - assert (Hgt : (n0 < ops s)%nat) by lia.
    specialize (Hkeep _ Hgt). specialize (Harmed Hgt).
    destruct (poke E (ops s)) as [[|]|]; congruence.
Qed.

Create Rewrite HintDb tickdb.

#[local] Hint Rewrite tick_clock tick_ops tick_log tick_queues
  tick_queue_count tick_threads tick_next_handle tick_queue : tickdb.

Ltac tick_simpl :=
  repeat (cbn -[tick]; autorewrite with tickdb).

Section Producer.

Variable E : Env.
Variable period : Q.

Lemma produce_loop_stop row rest np s :
  stress_tests_finished (self (tick E s)) = true ->
  produce_loop E period (row :: rest) np s
  = (Ok tt, emit (EvFlag true) (tick E s)).
Proof.
  intros H. simpl. unfold bind, get_stress_tests_finished. now rewrite H.
Qed.

Lemma produce_loop_go row rest np s :
  stress_tests_finished (self (tick E s)) = false ->
  produce_loop E period (row :: rest) np s
  = produce_loop E period rest (np + period) (iter_state E period row np s).
Proof.
  intros H. simpl. unfold bind at 1. unfold get_stress_tests_finished.
  rewrite H. unfold bind, queue_put, time_time, time_sleep.
  cbv zeta. rewrite clamp_sleep_accepted. reflexivity.
Qed.

Lemma iter_state_log row np s :
  let c := clock s in
  let d1 := elapsed E (ops s) in
  let d2 := elapsed E (S (ops s)) in
  let d3 := elapsed E (S (S (ops s))) in
  let d4 := elapsed E (S (S (S (ops s)))) in
  log (iter_state E period row np s)
  = log s ++
    [EvFlag false;
     EvPut (queue (self s)) (c + d1 + d2) (Some row);
     EvTime (c + d1 + d2 + d3);
     EvSleep (clamp_sleep (np + period - (c + d1 + d2 + d3)))]
  /\ clock (iter_state E period row np s)
     = (c + d1 + d2 + d3 + d4
        + clamp_sleep (np + period - (c + d1 + d2 + d3)))%Q
  /\ ops (iter_state E period row np s) = (4 + ops s)%nat.
Proof.
  unfold iter_state. tick_simpl.
  rewrite <- !app_assoc. repeat split.
Qed.

Lemma iter_state_frame row np s :
  same_frame s (iter_state E period row np s) /\
  queues (iter_state E period row np s) (queue (self s))
  = queues s (queue (self s)) ++ [Some row].
Proof.
  unfold iter_state.
  split.
  - split; [|repeat split].
    + cbn -[tick].
      repeat (eapply same_config_trans; [|apply tick_config]; cbn -[tick]).
      apply same_config_refl.
    + intros r Hr. tick_simpl.
      destruct (Nat.eqb_spec r (queue (self s))); [contradiction|reflexivity].
  - tick_simpl. now rewrite Nat.eqb_refl.
Qed.

Lemma iter_state_armed n0 row np s :
  signal_set_at E n0 -> armed n0 s ->
  armed n0 (iter_state E period row np s).
Proof.
  intros Hset Harmed. unfold iter_state.
  repeat (first [apply (tick_armed Hset) | progress (unfold armed; cbn -[tick]; fold (armed n0))]).
  exact Harmed.
Qed.

Lemma produce_loop_run (P : Q -> Prop) :
  (forall n, P (elapsed E n)) ->
  forall data np s,
  exists evs s',
    produce_loop E period data np s = (Ok tt, s')
    /\ log s' = log s ++ evs
    /\ loop_run P (queue (self s)) period np (clock s) data evs (clock s')
    /\ same_frame s s'
    /\ queues s' (queue (self s)) = queues s (queue (self s)) ++ puts evs
    /\ ops s' = (List.length (flag_reads evs) + 3 * List.length (sleeps evs)
                 + ops s)%nat
    /\ (forall n0, signal_set_at E n0 -> armed n0 s ->
        puts evs = [] \/
        (ops s + 4 * List.length (puts evs) <= n0 + 3)%nat).
Proof.
  intros HP data.
  induction data as [|row rest IH]; intros np s.
  - exists [], s. simpl. rewrite !app_nil_r.
    repeat split; try (intros; now left); constructor.
  - destruct (stress_tests_finished (self (tick E s))) eqn:Hflag.
    + exists [EvFlag true], (emit (EvFlag true) (tick E s)).
      rewrite (produce_loop_stop _ _ _ _ Hflag). tick_simpl.
      repeat split; try apply tick_config; try (intros; now left).
      * constructor. apply HP.
      * now rewrite app_nil_r.
    + rewrite (produce_loop_go _ _ _ _ Hflag).
      destruct (IH (np + period)%Q (iter_state E period row np s))
        as (evs & s' & Hrun & Hlog & Hloop & Hframe & Hq & Hops & Hsig).
      destruct (iter_state_log row np s) as (Ilog & Iclock & Iops).
      destruct (iter_state_frame row np s) as (Iframe & Iq).
      assert (Hqueue : queue (self (iter_state E period row np s))
                       = queue (self s)) by apply Iframe.
      cbv zeta in Ilog, Iclock.
      rewrite Hqueue in *.
      eexists (_ :: _ :: _ :: _ :: evs), s'.
      split; [exact Hrun|].
      split; [rewrite Hlog, Ilog, <- app_assoc; reflexivity|].
      split.
      { rewrite Iclock in Hloop.
        eapply run_iter; cycle 4; [exact Hloop|..]; apply HP. }
      split; [eapply same_frame_trans; eassumption|].
      split; [rewrite Hq, Iq, <- app_assoc; reflexivity|].
      split; [rewrite Hops, Iops; cbn [flag_reads sleeps List.length]; lia|].
      intros n0 Hset Harmed. right.
      pose proof (tick_armed Hset Harmed) as Ht.
      assert (Hn : (S (ops s) <= n0)%nat).
      { destruct (Nat.le_gt_cases (S (ops s)) n0) as [Hle|Hgt]; [exact Hle|].
        unfold armed in Ht. rewrite tick_ops in Ht.
        specialize (Ht Hgt). congruence. }
      destruct (Hsig n0 Hset (@iter_state_armed n0 row np s Hset Harmed))
        as [Hnone|Hle].
      * cbn [puts]. rewrite Hnone. simpl. lia.
      * cbn [puts List.length]. rewrite Iops in Hle. lia.
Qed.

(** [produce] as a whole: the first clock reading, the loop, the sentinel. *)
Lemma produce_run (P : Q -> Prop) :
  (forall n, P (elapsed E n)) ->
  forall data s,
  exists evs s' c' d,
    produce E data period s = (Ok tt, s')
    /\ new_events (produce E data period) s
       = EvTime (clock s + elapsed E (ops s))
         :: evs ++ [EvPut (queue (self s)) (c' + d) None]
    /\ loop_run P (queue (self s)) period
                (clock s + elapsed E (ops s)) (clock s + elapsed E (ops s))
                data evs c'
    /\ P d
    /\ same_frame s s'
    /\ queues s' (queue (self s))
       = queues s (queue (self s)) ++ puts evs ++ [None]
    /\ ops s' = (2 + List.length (flag_reads evs)
                 + 3 * List.length (sleeps evs) + ops s)%nat
    /\ (forall n0, signal_set_at E n0 -> (ops s <= n0)%nat ->
        puts evs = [] \/
        (ops s + 4 * List.length (puts evs) <= n0 + 2)%nat).
Proof.
  intros HP data s.
  destruct (produce_loop_run P HP data (clock (tick E s))
              (emit (EvTime (clock (tick E s))) (tick E s)))
    as (evs & s1 & Hrun & Hlog & Hloop & Hframe & Hq & Hops & Hsig).
  revert Hrun Hlog Hloop Hq Hops Hsig. tick_simpl.
  intros Hrun Hlog Hloop Hq Hops Hsig.
  assert (Hqueue : queue (self s1) = queue (self s)).
  { destruct Hframe as ((_ & H & _) & _). revert H. now tick_simpl. }
  exists evs.
  eexists. exists (clock s1), (elapsed E (ops s1)).
  unfold produce, new_events, bind, time_time. tick_simpl.
  rewrite Hrun. unfold queue_put. tick_simpl.
  split; [reflexivity|].
  rewrite Hqueue, Hlog.
  split.
  { rewrite <- !app_assoc. apply (skipn_length_app (log s)). }
  split; [exact Hloop|].
  split; [apply HP|].
  split.
  { eapply same_frame_trans with (s2 := s1).
    - eapply same_frame_trans; [|exact Hframe].
      split; [apply tick_config|repeat split].
    - split; [apply tick_config|]. repeat split.
      intros r Hr. tick_simpl.
      destruct (Nat.eqb_spec r (queue (self s))); congruence. }
  split.
  { tick_simpl. rewrite Nat.eqb_refl, Hq, <- app_assoc. reflexivity. }
  split; [tick_simpl; rewrite Hops; lia|].
  intros n0 Hset Hn0.
  destruct (Hsig n0 Hset) as [Hnone|Hle]; [|now left|right; lia].
  assert (Ht : armed n0 (tick E s)).
  { apply (tick_armed Hset). intros Hlt. lia. }
  exact Ht.
Qed.

End Producer.

(** *** What every run of the loop looks like *)

Lemma loop_run_shape P q period np c data evs c' :
  loop_run P q period np c data evs c' ->
  exists k,
    (k <= List.length data)%nat
    /\ puts evs = map Some (firstn k data)
    /\ map snd (emissions evs) = firstn k data
    /\ flag_reads evs
       = repeat false k
         ++ (if (k <? List.length data)%nat then [true] else [])
    /\ List.length (sleeps evs) = k
    /\ List.length (clock_reads evs) = k
    /\ acts evs = emit_then_sleep (firstn k data) (sleeps evs).
Proof.
  induction 1 as [np c|np c d row rest Hd
                 |np c d1 d2 d3 d4 row rest evs c' H1 H2 H3 H4 Hrun IH].
  - exists 0%nat. repeat split; auto.
  - exists 0%nat. simpl. repeat split; auto. lia.
  - destruct IH as (k & Hk & Hputs & Hems & Hflags & Hsl & Hcl & Hacts).
    exists (S k). simpl.
    rewrite Hputs, Hems, Hflags, Hsl, Hcl, Hacts.
    repeat split; auto. lia.
Qed.











Lemma loop_run_no_sentinel P q period np c data evs c' :
  loop_run P q period np c data evs c' ->
  List.length (emissions evs) = List.length (puts evs).
Proof. induction 1; simpl; auto. Qed.

(** The projections of a trace distribute over concatenation. *)


Lemma emissions_app tr1 tr2 :
  emissions (tr1 ++ tr2) = emissions tr1 ++ emissions tr2.
Proof.
  induction tr1 as [|[| | | |? ? [row|]| | | | | | | | | | |] tr1 IH];
    simpl; auto.
  now rewrite IH.
Qed.



Lemma flag_reads_app tr1 tr2 :
  flag_reads (tr1 ++ tr2) = flag_reads tr1 ++ flag_reads tr2.
Proof.
  induction tr1 as [|[] tr1 IH]; simpl; auto. now rewrite IH.
Qed.




(** ** Properties of the producer *)



(** *** A producer that nobody stops *)

Lemma undisturbed_tick (E : Env) s :
  undisturbed E ->
  stress_tests_finished (self (tick E s)) = stress_tests_finished (self s).
Proof. intros H. rewrite tick_flag. now rewrite (H (ops s)). Qed.

Lemma iter_state_flag (E : Env) period row np s :
  undisturbed E ->
  stress_tests_finished (self (iter_state E period row np s))
  = stress_tests_finished (self s).
Proof.
  intros H. unfold iter_state. cbn -[tick].
  rewrite (undisturbed_tick _ H). cbn -[tick].
  rewrite (undisturbed_tick _ H). cbn -[tick].
  rewrite (undisturbed_tick _ H). cbn -[tick].
  now rewrite (undisturbed_tick _ H).
Qed.

Lemma produce_loop_undisturbed (E : Env) period data :
  undisturbed E ->
  forall np s,
    stress_tests_finished (self s) = false ->
    exists evs,
      log (snd (produce_loop E period data np s)) = log s ++ evs
      /\ map snd (emissions evs) = data
      /\ Forall (fun b => b = false) (flag_reads evs).
Proof.
  intros Hu. induction data as [|row rest IH]; intros np s Hflag.
  - exists []. simpl. rewrite app_nil_r. auto.
  - assert (Ht : stress_tests_finished (self (tick E s)) = false)
      by now rewrite undisturbed_tick.
    rewrite (produce_loop_go E period row rest np s Ht).
    destruct (IH (np + period)%Q (iter_state E period row np s))
      as (evs & Hlog & Hems & Hfl).
    { now rewrite iter_state_flag. }
    destruct (iter_state_log E period row np s) as (Ilog & _ & _).
    cbv zeta in Ilog. rewrite Hlog, Ilog, <- app_assoc.
    eexists. split; [reflexivity|]. simpl.
    split; [now rewrite Hems|]. constructor; auto.
Qed.

(** With the flag unset and nobody setting it, [produce] emits all of its
    input. *)
Lemma produce_undisturbed (E : Env) period data s :
  undisturbed E ->
  stress_tests_finished (self s) = false ->
  map snd (emissions (new_events (produce E data period) s)) = data.
Proof.
  intros Hu Hflag.
  destruct (@produce_loop_run E period (fun _ => True) (fun _ => I) data
              (clock (tick E s))
              (emit (EvTime (clock (tick E s))) (tick E s)))
    as (evs & s1 & Hrun & Hlog & _).
  destruct (produce_loop_undisturbed period data Hu (clock (tick E s))
              (emit (EvTime (clock (tick E s))) (tick E s)))
    as (evs' & Hlog' & Hems & _).
  { cbn -[tick]. now rewrite undisturbed_tick. }
  rewrite Hrun in Hlog'. cbn [snd] in Hlog'. rewrite Hlog in Hlog'.
  apply app_inv_head in Hlog'. subst evs'.
  revert Hrun Hlog. tick_simpl. intros Hrun Hlog.
  unfold produce, new_events, bind, time_time. tick_simpl.
  rewrite Hrun. unfold queue_put. tick_simpl.
  rewrite Hlog. rewrite <- !app_assoc.
  rewrite (skipn_length_app (log s)).
  cbn [app emissions]. rewrite emissions_app. cbn [emissions].
  now rewrite app_nil_r.
Qed.


(** *** The bound on the emission rate *)


Lemma emitted_by_mono (d1 d2 : Q) (ems : list (Q * Row)) :
  (d1 <= d2)%Q -> (emitted_by d1 ems <= emitted_by d2 ems)%nat.
Proof.
  intros Hd. unfold emitted_by.
  induction ems as [|[t row] ems IH]; simpl; [lia|].
  destruct (Qle_bool t d1) eqn:H1.
  - apply Qle_bool_iff in H1.
    assert (H2 : Qle_bool t d2 = true) by (apply Qle_bool_iff; lra).
    rewrite H2. simpl. lia.
  - destruct (Qle_bool t d2); simpl; lia.
Qed.






(** ** Stepwise reasoning about the methods

    [steps R m]: whatever the outcome of [m], the state it leaves is
    related by [R] to the state it started in.  A relation that is a
    preorder and is closed under the elementary state updates, for the
    events in [okev], is carried through every method built from the
    primitives. *)

Section Steps.

Variable E : Env.
Variable okev : Event -> Prop.
Variable R : St -> St -> Prop.
Hypothesis F : Footstep E okev R.

Lemma steps_ret {A} (a : A) : steps R (ret a).
Proof. intros s. apply (fs_refl F). Qed.

Lemma steps_raise {A} (e : PyExc) : steps R (@raise A e).
Proof. intros s. apply (fs_refl F). Qed.

Lemma steps_bind {A B} (m : M A) (k : A -> M B) :
  steps R m -> (forall a, steps R (k a)) -> steps R (bind m k).
Proof.
  intros Hm Hk s. unfold bind. specialize (Hm s).
  destruct (m s) as [[a|e|] s1]; simpl in *; auto.
  eapply (fs_trans F); [exact Hm|apply Hk].
Qed.

Lemma steps_get_self {A} (f : TestSuite -> A) : steps R (get_self f).
Proof. intros s. apply (fs_refl F). Qed.

Lemma steps_gen_test_data (n : Z) : steps R (gen_test_data E n).
Proof. intros s. apply (fs_refl F). Qed.

Lemma steps_time_time : (forall t, okev (EvTime t)) -> steps R (time_time E).
Proof.
  intros Hok s. unfold time_time. cbn -[tick].
  eapply (fs_trans F); [apply (fs_tick F)|apply (fs_emit F), Hok].
Qed.

Lemma steps_time_sleep (d : Q) : okev (EvSleep d) -> steps R (time_sleep E d).
Proof.
  intros Hok s. unfold time_sleep.
  destruct (Qle_bool 0 d); cbn -[tick]; [|apply (fs_refl F)].
  eapply (fs_trans F); [apply (fs_tick F)|].
  eapply (fs_trans F); [apply (fs_clock F)|apply (fs_emit F), Hok].
Qed.

Lemma steps_get_flag :
  (forall b, okev (EvFlag b)) -> steps R (get_stress_tests_finished E).
Proof.
  intros Hok s. unfold get_stress_tests_finished. cbn -[tick].
  eapply (fs_trans F); [apply (fs_tick F)|apply (fs_emit F), Hok].
Qed.

Lemma steps_set_flag (b : bool) : steps R (set_stress_tests_finished b).
Proof. intros s. apply (fs_flag F). Qed.

Lemma steps_start_thread (t : Thread) :
  (forall tid, okev (EvThreadStart tid t)) -> steps R (start_thread t).
Proof.
  intros Hok s. unfold start_thread. cbn [snd].
  apply (fs_threads F), Hok.
Qed.

Lemma steps_external {A} (a : St -> A) (after : A -> St -> St) :
  (forall x s, R s (after x s)) -> steps R (external E a after).
Proof.
  intros Hafter s. unfold external.
  destruct (fault E (ops s)); cbn -[tick].
  - apply (fs_tick F).
  - eapply (fs_trans F); [apply (fs_tick F)|apply Hafter].
Qed.

Lemma steps_client_copy (c : DBClient) :
  (forall h, okev (EvCopy (handle c) h)) -> steps R (client_copy E c).
Proof.
  intros Hok. apply steps_external. intros c' s.
  eapply (fs_trans F); [apply (fs_handle F)|apply (fs_emit F), Hok].
Qed.

Lemma steps_client_prepare_database (c : DBClient) :
  okev (EvPrepare (handle c)) -> steps R (client_prepare_database E c).
Proof.
  intros Hok. apply steps_external. intros _ s. apply (fs_emit F), Hok.
Qed.

Lemma steps_client_insert_data (c : DBClient) (rows : list Row) :
  okev (EvInsert (handle c) rows) -> steps R (client_insert_data E c rows).
Proof.
  intros Hok. apply steps_external. intros _ s. apply (fs_emit F), Hok.
Qed.

Lemma steps_measure_time op (c : DBClient) repeats :
  (forall t, okev (EvMeasure op (handle c) repeats t)) ->
  steps R (measure_time E op c repeats).
Proof.
  intros Hok. apply steps_external. intros t s. apply (fs_emit F), Hok.
Qed.

Lemma steps_with_connect {A} (c : DBClient) (body : M A) :
  okev (EvConnect (handle c)) -> okev (EvRelease (handle c)) ->
  steps R body -> steps R (with_connect E c body).
Proof.
  intros Hc Hr Hbody s. unfold with_connect.
  pose proof (@steps_external unit (fun _ => tt)
                (fun _ => emit (EvConnect (handle c)))
                (fun _ s => fs_emit F _ s Hc) s) as H1.
  destruct (external E _ _ s) as [[[]|e|] s1]; simpl in *; auto.
  specialize (Hbody s1).
  destruct (body s1) as [[a|e|] s2]; simpl in *.
  - eapply (fs_trans F); [exact H1|].
    eapply (fs_trans F); [exact Hbody|apply (fs_emit F), Hr].
  - eapply (fs_trans F); [exact H1|].
    eapply (fs_trans F); [exact Hbody|apply (fs_emit F), Hr].
  - eapply (fs_trans F); eassumption.
Qed.

Lemma steps_new_pool (n : Z) : okev (EvPool n) -> steps R (new_pool n).
Proof.
  intros Hok s. unfold new_pool.
  destruct (n <=? 0)%Z; cbn; [apply (fs_refl F)|apply (fs_emit F), Hok].
Qed.

Lemma steps_yield (r : TestResult) : okev (EvYield r) -> steps R (yield r).
Proof. intros Hok s. apply (fs_emit F), Hok. Qed.

Lemma steps_py_truediv_one (n : Z) : steps R (py_truediv_one n).
Proof.
  unfold py_truediv_one. destruct (n =? 0)%Z;
    [apply steps_raise|apply steps_ret].
Qed.

Lemma steps_py_truediv (x : Q) (n : Z) : steps R (py_truediv x n).
Proof.
  unfold py_truediv. destruct (n =? 0)%Z;
    [apply steps_raise|apply steps_ret].
Qed.

Lemma steps_py_next (data : list Row) : steps R (py_next data).
Proof. destruct data; [apply steps_raise|apply steps_ret]. Qed.

Lemma steps_unpack_ids (row : Row) : steps R (unpack_ids row).
Proof.
  destruct row as [|f [|u rest]];
    [apply steps_raise|apply steps_raise|apply steps_ret].
Qed.

Lemma steps_copy_clients (c : DBClient) (n : nat) :
  (forall h, okev (EvCopy (handle c) h)) -> steps R (copy_clients E c n).
Proof.
  intros Hok. induction n as [|n IH]; simpl; [apply steps_ret|].
  apply steps_bind; [now apply steps_client_copy|]. intros c'.
  apply steps_bind; [exact IH|]. intros cs. apply steps_ret.
Qed.

Lemma steps_pool_map (f : DBClient -> M Q) (cs : list DBClient) :
  (forall h, okev (EvSubmit h)) ->
  (forall c, steps R (f c)) ->
  forall s, R s (snd (pool_map f cs s)).
Proof.
  intros Hok Hf. induction cs as [|c cs IH]; intros s; simpl.
  - apply (fs_refl F).
  - pose proof (Hf c (emit (EvSubmit (handle c)) s)) as H1.
    destruct (f c (emit (EvSubmit (handle c)) s)) as [r s1].
    specialize (IH s1).
    destruct (pool_map f cs s1) as [rs s2]. simpl in *.
    eapply (fs_trans F); [apply (fs_emit F), Hok|].
    eapply (fs_trans F); eassumption.
Qed.

Lemma steps_run_in_parallel (c : DBClient) (f : DBClient -> M Q) (n : Z) :
  (forall h, okev (EvCopy (handle c) h)) ->
  okev (EvPool n) ->
  (forall h, okev (EvSubmit h)) ->
  (forall c', steps R (f c')) ->
  steps R (run_in_parallel E c f n).
Proof.
  intros Hcopy Hpool Hsub Hf. unfold run_in_parallel.
  apply steps_bind; [now apply steps_copy_clients|]. intros cs.
  apply steps_bind; [now apply steps_new_pool|]. intros _ s.
  pose proof (steps_pool_map f cs Hsub Hf s) as H.
  destruct (pool_map f cs s) as [rs s1]. simpl in *.
  now destruct (any_hang rs).
Qed.

End Steps.

Ltac steps_auto F :=
  repeat first
    [ apply (steps_ret F)
    | apply (steps_raise F)
    | apply (steps_get_self F)
    | apply (steps_gen_test_data F)
    | apply (steps_py_truediv_one F)
    | apply (steps_py_truediv F)
    | apply (steps_py_next F)
    | apply (steps_unpack_ids F)
    | apply (steps_set_flag F)
    | apply (steps_with_connect F)
    | apply (steps_time_sleep F)
    | apply (steps_time_time F)
    | apply (steps_start_thread F)
    | apply (steps_client_copy F)
    | apply (steps_client_prepare_database F)
    | apply (steps_client_insert_data F)
    | apply (steps_measure_time F)
    | apply (steps_yield F)
    | apply (steps_run_in_parallel F)
    | apply (steps_bind F); [|intros] ].

Section Orchestrator.

Variable E : Env.
Variable okev : Event -> Prop.
Variable R : St -> St -> Prop.
Hypothesis F : Footstep E okev R.
Hypothesis Hharm : forall e, harmless e -> okev e.

Lemma steps_prepare_database (c : DBClient) (rows : list Row) :
  okev (EvInsert (handle c) rows) -> steps R (prepare_database E c rows).
Proof.
  intros Hins. unfold prepare_database.
  steps_auto F; try (intros; apply Hharm; exact I); exact Hins.
Qed.

Lemma steps_run_static_tests (c : DBClient) (f u : PyVal) :
  (forall t,
      okev (EvMeasure (OpRetrieveLastTimecode f u) (handle c)
                      (Some 100%nat) t)) ->
  steps R (run_static_tests E c f u).
Proof.
  intros Hm. unfold run_static_tests.
  steps_auto F; try (intros; apply Hharm; exact I); exact Hm.
Qed.

Lemma steps_run_stress_tests (c : DBClient) (f u : PyVal) :
  (forall t,
      okev (EvMeasure (OpRetrieveLastTimecode f u) (handle c)
                      (Some 100%nat) t)) ->
  steps R (run_stress_tests E c f u).
Proof.
  intros Hm. unfold run_stress_tests.
  steps_auto F; try (intros; apply Hharm; exact I); exact Hm.
Qed.

Lemma steps_measure_retrieve_last_timecode (f u : PyVal) (c : DBClient) :
  (forall t,
      okev (EvMeasure (OpRetrieveLastTimecode f u) (handle c)
                      (Some 100%nat) t)) ->
  steps R (measure_retrieve_last_timecode E f u c).
Proof.
  intros Hm. unfold measure_retrieve_last_timecode.
  steps_auto F; try (intros; apply Hharm; exact I); exact Hm.
Qed.

Lemma steps_measure_retrieve_most_viewed (c : DBClient) :
  steps R (measure_retrieve_most_viewed E c).
Proof.
  unfold measure_retrieve_most_viewed.
  steps_auto F; intros; apply Hharm; exact I.
Qed.

Lemma steps_run_parallel_read_tests (c : DBClient) (f u : PyVal) :
  (forall h t,
      okev (EvMeasure (OpRetrieveLastTimecode f u) h (Some 100%nat) t)) ->
  steps R (run_parallel_read_tests E c f u).
Proof.
  intros Hm. unfold run_parallel_read_tests.
  steps_auto F; try (intros; apply Hharm; exact I).
  - intros c'. apply steps_measure_retrieve_last_timecode. intros t. apply Hm.
  - intros c'. apply steps_measure_retrieve_most_viewed.
Qed.

(** The phases of [run] for one client, once the first row has been taken
    off the initial data. *)
Lemma steps_phases (c : DBClient) (tail : list Row) (f u : PyVal)
  {A} (k : Q * Q * Q -> Q * Q -> Q * Q -> M A) :
  okev (EvInsert (handle c) tail) ->
  (forall h t,
      okev (EvMeasure (OpRetrieveLastTimecode f u) h (Some 100%nat) t)) ->
  (forall x y z, steps R (k x y z)) ->
  steps R
    (prepare_database E c tail ;;;
     x <- run_static_tests E c f u ;;
     y <- run_stress_tests E c f u ;;
     z <- run_parallel_read_tests E c f u ;;
     k x y z).
Proof.
  intros Hins Hm Hk.
  apply (steps_bind F); [now apply steps_prepare_database|]. intros _.
  apply (steps_bind F); [apply steps_run_static_tests; intros; apply Hm|].
  intros x.
  apply (steps_bind F); [apply steps_run_stress_tests; intros; apply Hm|].
  intros y.
  apply (steps_bind F); [now apply steps_run_parallel_read_tests|].
  intros z. apply Hk.
Qed.

Lemma steps_run_client (c : DBClient) :
  (forall h rows, okev (EvInsert h rows)) ->
  (forall f u h t,
      okev (EvMeasure (OpRetrieveLastTimecode f u) h (Some 100%nat) t)) ->
  steps R (run_client E c).
Proof.
  intros Hins Hm. unfold run_client.
  apply (steps_bind F); [apply (steps_get_self F)|]. intros n.
  apply (steps_bind F); [apply (steps_gen_test_data F)|]. intros d.
  apply (steps_bind F); [apply (steps_py_next F)|]. intros first.
  apply (steps_bind F); [apply (steps_unpack_ids F)|]. intros ids.
  apply steps_phases; auto.
  intros [[t1 t2] t3] [t4 t5] [t6 t7]. apply (steps_ret F).
Qed.

Lemma steps_run_clients (cs : list DBClient) :
  (forall h rows, okev (EvInsert h rows)) ->
  (forall f u h t,
      okev (EvMeasure (OpRetrieveLastTimecode f u) h (Some 100%nat) t)) ->
  steps R (run_clients E cs).
Proof.
  intros Hins Hm. induction cs as [|c cs IH]; simpl; [apply (steps_ret F)|].
  apply (steps_bind F); [now apply steps_run_client|]. intros r.
  apply (steps_bind F); [apply (steps_yield F), Hharm; exact I|]. intros _.
  apply (steps_bind F); [exact IH|]. intros rs. apply (steps_ret F).
Qed.

Lemma steps_run :
  (forall h rows, okev (EvInsert h rows)) ->
  (forall f u h t,
      okev (EvMeasure (OpRetrieveLastTimecode f u) h (Some 100%nat) t)) ->
  steps R (run E).
Proof.
  intros Hins Hm s. unfold run. now apply steps_run_clients.
Qed.

End Orchestrator.

(** *** Two relations that every method carries *)

Lemma emits_footstep (E : Env) (P : Event -> Prop) :
  Footstep E P (emits P).
Proof.
  constructor.
  - intros s. exists []. now rewrite app_nil_r.
  - intros s1 s2 s3 (e1 & H1 & F1) (e2 & H2 & F2).
    exists (e1 ++ e2). rewrite H2, H1, app_assoc. split; auto.
    apply Forall_app; auto.
  - intros s. exists []. rewrite tick_log. now rewrite app_nil_r.
  - intros e s He. exists [e]. simpl. auto.
  - intros c s. exists []. simpl. now rewrite app_nil_r.
  - intros b s. exists []. simpl. now rewrite app_nil_r.
  - intros h s. exists []. simpl. now rewrite app_nil_r.
  - intros t s Ht. eexists [_]. simpl. auto.
Qed.

Lemma keeps_queues_footstep (E : Env) :
  Footstep E (fun _ => True) keeps_queues.
Proof.
  constructor; unfold keeps_queues.
  - intros s. auto.
  - intros s1 s2 s3 (A1 & B1 & C1) (A2 & B2 & C2). repeat split; congruence.
  - intros s. rewrite tick_queue, tick_queue_count, tick_queues. auto.
  - intros e s _. simpl. auto.
  - intros c s. simpl. auto.
  - intros b s. simpl. auto.
  - intros h s. simpl. auto.
  - intros t s _. simpl. auto.
Qed.

Lemma keeps_config_footstep (E : Env) :
  Footstep E (fun _ => True) keeps_config.
Proof.
  constructor; unfold keeps_config; try (intros; apply same_config_refl).
  - intros s1 s2 s3. apply same_config_trans.
  - intros s. apply tick_config.
  - intros b s. apply same_config_set_flag.
Qed.

Lemma emits_new_events {A} (P : Event -> Prop) (m : M A) (s : St) :
  emits P s (snd (m s)) ->
  log (snd (m s)) = log s ++ new_events m s /\ Forall P (new_events m s).
Proof.
  intros (evs & Hlog & HP). unfold new_events.
  rewrite Hlog, skipn_length_app. auto.
Qed.

Lemma emits_weaken (P P' : Event -> Prop) s s' :
  (forall e, P e -> P' e) -> emits P s s' -> emits P' s s'.
Proof.
  intros HPP' (evs & Hlog & HP). exists evs. split; [exact Hlog|].
  eapply Forall_impl; eauto.
Qed.

(** ** The parallel fan-out *)

Lemma clones_of_length c h n : List.length (clones_of c h n) = n.
Proof. revert h. induction n; intros h; simpl; auto. Qed.

Lemma clones_of_handles_ge c h n x :
  In x (map handle (clones_of c h n)) -> (h <= x)%nat.
Proof.
  revert h. induction n as [|n IH]; intros h; simpl; [tauto|].
  intros [<-|Hin]; [lia|]. apply IH in Hin. lia.
Qed.

Lemma clones_of_NoDup c h n : NoDup (map handle (clones_of c h n)).
Proof.
  revert h. induction n as [|n IH]; intros h; simpl; constructor; auto.
  intros Hin. apply clones_of_handles_ge in Hin. lia.
Qed.

Section FanOut.

Variable E : Env.

Lemma copy_clients_spec (c : DBClient) (n : nat) :
  forall s,
    (forall i, (i < n)%nat -> fault E (ops s + i) = None) ->
    exists s',
      copy_clients E c n s = (Ok (clones_of c (next_handle s) n), s')
      /\ log s'
         = log s ++ map (fun c' => EvCopy (handle c) (handle c'))
                        (clones_of c (next_handle s) n)
      /\ ops s' = (ops s + n)%nat.
Proof.
  induction n as [|n IH]; intros s Hf.
  - exists s. simpl. rewrite app_nil_r. auto.
  - assert (H0 : fault E (ops s) = None).
    { rewrite <- (Nat.add_0_r (ops s)). apply Hf. lia. }
    simpl. unfold bind at 1. unfold client_copy, external. rewrite H0.
    set (s1 := emit _ _).
    destruct (IH s1) as (s' & Hrun & Hlog & Hops).
    { intros i Hi. subst s1. tick_simpl.
      replace (S (ops s + i))%nat with (ops s + S i)%nat by lia.
      apply Hf. lia. }
    exists s'.
    assert (Hnh : next_handle s1 = S (next_handle s)) by reflexivity.
    rewrite Hnh in Hrun, Hlog.
    unfold bind. tick_simpl. rewrite Hrun. unfold ret.
    split; [reflexivity|]. split.
    + rewrite Hlog. subst s1. tick_simpl. now rewrite <- app_assoc.
    + rewrite Hops. subst s1. tick_simpl. lia.
Qed.

Lemma copy_clients_length (c : DBClient) (n : nat) :
  forall s cs s',
    copy_clients E c n s = (Ok cs, s') -> List.length cs = n.
Proof.
  induction n as [|n IH]; intros s cs s' H; simpl in H.
  - inversion H. reflexivity.
  - unfold bind in H.
    destruct (client_copy E c s) as [[c0|e|] s1]; try discriminate.
    destruct (copy_clients E c n s1) as [[cs0|e|] s2] eqn:Hc;
      try discriminate.
    inversion H; subst. simpl. f_equal. eapply IH; eauto.
Qed.

Lemma pool_map_length (f : DBClient -> M Q) (cs : list DBClient) :
  forall s, List.length (fst (pool_map f cs s)) = List.length cs.
Proof.
  induction cs as [|c cs IH]; intros s; simpl; [reflexivity|].
  destruct (f c (emit (EvSubmit (handle c)) s)) as [r s1].
  specialize (IH s1). destruct (pool_map f cs s1) as [rs s2].
  simpl in *. now rewrite IH.
Qed.

Lemma list_results_length (rs : list (Res Q)) (ts : list Q) :
  list_results rs = Ok ts -> List.length ts = List.length rs.
Proof.
  revert ts. induction rs as [|[t|e|] rs IH]; intros ts H; simpl in H;
    try discriminate.
  - inversion H. reflexivity.
  - destruct (list_results rs) as [ts'|e|]; try discriminate.
    inversion H; subst. simpl. f_equal. now apply IH.
Qed.

Lemma list_results_all_ok (ts : list Q) : list_results (map Ok ts) = Ok ts.
Proof. induction ts as [|t ts IH]; simpl; [reflexivity|now rewrite IH]. Qed.

Lemma any_hang_all_ok (ts : list Q) : any_hang (map (@Ok Q) ts) = false.
Proof. induction ts as [|t ts IH]; simpl; auto. Qed.

Lemma list_results_first_failure (rs : list (Res Q)) :
  any_hang rs = false ->
  match first_failure rs with
  | Some e => list_results rs = Raise e
  | None => exists ts, list_results rs = Ok ts /\ rs = map Ok ts
  end.
Proof.
  induction rs as [|[t|e|] rs IH]; simpl; intros Hh; try discriminate.
  - exists []. auto.
  - specialize (IH Hh). destruct (first_failure rs) as [e|].
    + now rewrite IH.
    + destruct IH as (ts & -> & ->). exists (t :: ts). auto.
  - reflexivity.
Qed.

Lemma first_failure_some (rs : list (Res Q)) (e : PyExc) :
  In (Raise e) rs -> exists e', first_failure rs = Some e'.
Proof.
  induction rs as [|[t|e0|] rs IH]; simpl; intros Hin; try tauto.
  - destruct Hin as [Hin|Hin]; [discriminate|]. auto.
  - eauto.
  - destruct Hin as [Hin|Hin]; [discriminate|]. auto.
Qed.

Lemma first_failure_in (rs : list (Res Q)) (e : PyExc) :
  first_failure rs = Some e ->
  exists pre post,
    rs = pre ++ Raise e :: post /\ forall e', ~ In (Raise e') pre.
Proof.
  induction rs as [|[t|e0|] rs IH]; simpl; intros H; try discriminate.
  - destruct (IH H) as (pre & post & -> & Hpre).
    exists (Ok t :: pre), post. split; [reflexivity|].
    intros e' [Hin|Hin]; [discriminate|]. eapply Hpre; eauto.
  - inversion H; subst. exists [], rs. split; [reflexivity|]. intros e' [].
  - destruct (IH H) as (pre & post & -> & Hpre).
    exists (Hang :: pre), post. split; [reflexivity|].
    intros e' [Hin|Hin]; [discriminate|]. eapply Hpre; eauto.
Qed.

Lemma list_results_not_ok (rs : list (Res Q)) (e : PyExc) :
  In (Raise e) rs -> forall ts, list_results rs <> Ok ts.
Proof.
  induction rs as [|[t|e0|] rs IH]; simpl; intros Hin ts; try tauto;
    try discriminate.
  destruct Hin as [Hin|Hin]; [discriminate|].
  destruct (list_results rs) as [ts'|e'|] eqn:Hl; try discriminate.
  exfalso. eapply IH; eauto.
Qed.

Lemma filter_fan_out_none (evs : list Event) :
  Forall (fun e => fan_out_event e = false) evs ->
  filter fan_out_event evs = [].
Proof.
  induction 1 as [|e evs He _ IH]; simpl; [reflexivity|].
  now rewrite He.
Qed.

Lemma pool_map_spec (f : DBClient -> M Q) (cs : list DBClient) :
  measures_only f ->
  (forall c s, returns (fst (f c s))) ->
  forall s,
  exists ts evs,
    fst (pool_map f cs s) = map Ok ts
    /\ log (snd (pool_map f cs s)) = log s ++ evs
    /\ filter fan_out_event evs = map (fun c => EvSubmit (handle c)) cs.
Proof.
  intros Hq Hr. induction cs as [|c cs IH]; intros s; simpl.
  - exists [], []. rewrite app_nil_r. auto.
  - destruct (Hr c (emit (EvSubmit (handle c)) s)) as (t & Ht).
    destruct (Hq c (emit (EvSubmit (handle c)) s)) as (e1 & Hl1 & Hf1).
    destruct (f c (emit (EvSubmit (handle c)) s)) as [r s1].
    simpl in Ht, Hl1. subst r.
    destruct (IH s1) as (ts & e2 & Hts & Hl2 & Hf2).
    destruct (pool_map f cs s1) as [rs s2]. simpl in *.
    exists (t :: ts), (EvSubmit (handle c) :: e1 ++ e2).
    split; [now rewrite Hts|]. split.
    + rewrite Hl2, Hl1, <- !app_assoc. reflexivity.
    + simpl. rewrite filter_app, (filter_fan_out_none Hf1), Hf2.
      reflexivity.
Qed.

End FanOut.

(** ** Properties of the consumer *)

(** C2.  On every sequence of queue values, [iter_queue] returns if and
    only if it has read exactly one sentinel (otherwise it has read none and
    stays blocked in [get]; it never raises).  The values it reads are a
    prefix of the queue: the rows it yields, in order, followed by the
    sentinel when there is one.  When it returns, what followed the sentinel
    is left on the queue as it was, and the sentinel is not put back.
    [consume] hands exactly the yielded rows to the client's
    [insert_data]. *)
Theorem iter_queue_returns_iff_one_sentinel (q : list QItem) :
  (returns (snd (iter_queue q)) <-> count_sentinels (values_read q) = 1%nat)
  /\ (snd (iter_queue q) = Hang <-> count_sentinels (values_read q) = 0%nat)
  /\ q = values_read q ++ left_on_queue (snd (iter_queue q))
  /\ values_read q
     = map Some (fst (iter_queue q))
       ++ match snd (iter_queue q) with
          | Ok _ => [None]
          | _ => []
          end
  /\ (forall rest,
        snd (iter_queue q) = Ok rest ->
        q = map Some (fst (iter_queue q)) ++ None :: rest)
  /\ (forall E c s,
        queues s (queue (self s)) = q ->
        fault E (ops s) = None -> fault E (S (ops s)) = None ->
        (returns (fst (consume E c s)) <-> returns (snd (iter_queue q)))
        /\ new_events (consume E c) s
           = EvConnect (handle c)
             :: map (EvGet (queue (self s))) (values_read q)
             ++ EvInsert (handle c) (fst (iter_queue q))
             :: match snd (iter_queue q) with
                | Ok _ => [EvRelease (handle c)]
                | _ => []
                end
        /\ queues (snd (consume E c s)) (queue (self s))
           = left_on_queue (snd (iter_queue q))).
Proof.
  pose proof (iter_queue_values_read q) as Hread.
  pose proof (iter_queue_split q) as Hsplit.
  assert (Hno : forall e, snd (iter_queue q) <> Raise e)
    by apply iter_queue_no_raise.
  split; [|split; [|split; [exact Hsplit|split; [exact Hread|split]]]].
  - rewrite Hread, count_sentinels_rows.
    destruct (snd (iter_queue q)) as [rest|e|]; simpl.
    + split; [reflexivity|]. intros _. now exists rest.
    + now destruct (Hno e).
    + split; [intros (a & Ha); discriminate|discriminate].
  - rewrite Hread, count_sentinels_rows.
    destruct (snd (iter_queue q)) as [rest|e|]; simpl.
    + split; discriminate.
    + now destruct (Hno e).
    + split; reflexivity.
  - apply iter_queue_returns.
  - intros E c s Hq F1 F2.
    unfold consume, with_connect, external, new_events,
      insert_data_from_queue.
    rewrite F1. tick_simpl. rewrite F2, Hq.
    destruct (iter_queue q) as [rows [rest|e|]]; simpl in *.
    + tick_simpl. rewrite Nat.eqb_refl.
      split; [split; intros _; eexists; reflexivity|].
      split; [|reflexivity].
      rewrite <- !app_assoc. apply (skipn_length_app (log s)).
    + now destruct (Hno e).
    + tick_simpl. rewrite Nat.eqb_refl.
      split; [split; intros (a & Ha); discriminate|].
      split; [|reflexivity].
      rewrite <- !app_assoc. apply (skipn_length_app (log s)).
Qed.

(** ** Properties of the fan-out *)

Lemma measure_retrieve_most_viewed_measures_only (E : Env) :
  measures_only (measure_retrieve_most_viewed E).
Proof.
  intros c. unfold measure_retrieve_most_viewed.
  apply (steps_with_connect (emits_footstep E _)); try reflexivity.
  apply (steps_measure_time (emits_footstep E _)). reflexivity.
Qed.

Lemma measure_retrieve_last_timecode_measures_only (E : Env) f u :
  measures_only (measure_retrieve_last_timecode E f u).
Proof.
  intros c. unfold measure_retrieve_last_timecode.
  apply (steps_with_connect (emits_footstep E _)); try reflexivity.
  apply (steps_measure_time (emits_footstep E _)). reflexivity.
Qed.

Lemma measure_retrieve_most_viewed_returns (E : Env) :
  no_fault E ->
  forall c s, returns (fst (measure_retrieve_most_viewed E c s)).
Proof.
  intros Hnf c s.
  unfold measure_retrieve_most_viewed, with_connect, measure_time, external.
  unfold no_fault in Hnf.
  rewrite Hnf. tick_simpl. rewrite Hnf. simpl. eexists; reflexivity.
Qed.

(** C5.  For a worker count [N >= 1], when no [copy()] fails and every
    worker returns, one call of [run_in_parallel] makes exactly [N] copies
    of the template handle, each with a handle of its own, creates one pool
    of size [N], submits the measurement function once per clone, in the
    order of the clones, and returns exactly [N] durations. *)
Theorem run_in_parallel_fans_out
  (E : Env) (client : DBClient) (client_method : DBClient -> M Q)
  (N : Z) (s : St) :
  (1 <= N)%Z ->
  (forall i, (i < Z.to_nat N)%nat -> fault E (ops s + i) = None) ->
  measures_only client_method ->
  (forall c s', returns (fst (client_method c s'))) ->
  let tr := new_events (run_in_parallel E client client_method N) s in
  exists clones results work,
    fst (run_in_parallel E client client_method N s) = Ok results
    /\ List.length clones = Z.to_nat N
    /\ List.length results = Z.to_nat N
    /\ NoDup (map handle clones)
    /\ tr = map (fun c => EvCopy (handle client) (handle c)) clones
            ++ EvPool N :: work
    /\ filter fan_out_event work
       = map (fun c => EvSubmit (handle c)) clones.
Proof.
  intros HN Hf Hq Hr tr.
  destruct (@copy_clients_spec E client (Z.to_nat N) s Hf)
    as (s1 & Hcopy & Hlog1 & Hops1).
  set (clones := clones_of client (next_handle s) (Z.to_nat N)) in *.
  destruct (@pool_map_spec client_method clones Hq Hr (emit (EvPool N) s1))
    as (ts & evs & Hts & Hlog2 & Hsub).
  assert (Hrun : run_in_parallel E client client_method N s
                 = (Ok ts, snd (pool_map client_method clones
                                         (emit (EvPool N) s1)))).
  { unfold run_in_parallel, bind. rewrite Hcopy. unfold new_pool.
    destruct (Z.leb_spec N 0) as [Hle|_]; [lia|].
    destruct (pool_map client_method clones (emit (EvPool N) s1))
      as [rs s2]. simpl in Hts. subst rs.
    now rewrite any_hang_all_ok, list_results_all_ok. }
  exists clones, ts, evs.
  assert (Hlen : List.length ts = List.length clones).
  { rewrite <- (length_map (@Ok Q) ts), <- Hts. apply pool_map_length. }
  unfold tr, new_events. rewrite Hrun. cbn [fst snd].
  split; [reflexivity|].
  split; [apply clones_of_length|].
  split; [rewrite Hlen; apply clones_of_length|].
  split; [apply clones_of_NoDup|].
  split; [|exact Hsub].
  rewrite Hlog2. simpl. rewrite Hlog1, <- !app_assoc.
  apply (skipn_length_app (log s)).
Qed.

Lemma run_in_parallel_fans_out_witness :
  (1 <= 4)%Z /\
  exists results,
    fst (run_in_parallel calm_env postgres
           (measure_retrieve_most_viewed calm_env) 4
           (suite_with 1000 2 4 [postgres])) = Ok results
    /\ List.length results = 4%nat.
Proof.
  split; [discriminate|].
  destruct (@run_in_parallel_fans_out
              calm_env postgres (measure_retrieve_most_viewed calm_env) 4
              (suite_with 1000 2 4 [postgres]))
    as (clones & results & work & Hrun & _ & Hlen & _).
  - discriminate.
  - intros i _. reflexivity.
  - apply measure_retrieve_most_viewed_measures_only.
  - apply measure_retrieve_most_viewed_returns. intros n. reflexivity.
  - exists results. split; [exact Hrun|exact Hlen].
Defined.

Lemma run_in_parallel_ok_length (E : Env) c f N s r s' :
  run_in_parallel E c f N s = (Ok r, s') ->
  List.length r = Z.to_nat N /\ (1 <= N)%Z.
Proof.
  unfold run_in_parallel, bind, new_pool. intros H.
  destruct (copy_clients E c (Z.to_nat N) s) as [[cs|e|] s1] eqn:Hc;
    try discriminate.
  apply copy_clients_length in Hc.
  destruct (Z.leb_spec N 0) as [Hle|Hgt]; [discriminate|].
  pose proof (pool_map_length f cs (emit (EvPool N) s1)) as Hlen.
  destruct (pool_map f cs (emit (EvPool N) s1)) as [rs s2].
  destruct (any_hang rs); [discriminate|].
  inversion H as [[Hl Hs]]. apply list_results_length in Hl.
  simpl in Hlen. split; [congruence|lia].
Qed.


(** *** Rounding to binary64 *)

Lemma round_half_even_spec (n d : Z) :
  (0 < d)%Z ->
  (- d <= 2 * (round_half_even n d * d - n) <= d)%Z.
Proof.
  intros Hd. unfold round_half_even.
  pose proof (Z.div_mod n d ltac:(lia)) as Hn.
  pose proof (Z.mod_pos_bound n d Hd) as Hr.
  destruct (Z.compare_spec (2 * (n mod d)) d) as [He|Hl|Hg];
    [destruct (Z.even (n / d))| |]; nia.
Qed.

Lemma pow2_pos (k : Z) : (0 < 2 ^ k)%Q.
Proof. apply Qpower_0_lt. reflexivity. Qed.

Lemma pow2_inject (k : Z) : (0 <= k)%Z -> (inject_Z (2 ^ k) == 2 ^ k)%Q.
Proof. intros H. now rewrite Zpower_Qpower. Qed.

Lemma pow2_add (n m : Z) : (2 ^ (n + m) == 2 ^ n * 2 ^ m)%Q.
Proof. apply Qpower_plus. discriminate. Qed.

Lemma pow2_opp (k : Z) : (2 ^ k * 2 ^ (- k) == 1)%Q.
Proof.
  rewrite <- pow2_add. now replace (k + - k)%Z with 0%Z by lia.
Qed.


Lemma scale2_spec (a b k : Z) :
  (0 < b)%Z ->
  (0 < snd (scale2 a b k))%Z
  /\ (inject_Z (fst (scale2 a b k)) * 2 ^ k
      == inject_Z a / inject_Z b * inject_Z (snd (scale2 a b k)))%Q.
Proof.
  intros Hb. unfold scale2.
  assert (HbQ : (0 < inject_Z b)%Q)
    by (change 0%Q with (inject_Z 0); rewrite <- Zlt_Qlt; exact Hb).
  destruct (Z.leb_spec 0 k) as [H|H]; cbn [fst snd].
  - split; [apply Z.mul_pos_pos; [exact Hb|apply Z.pow_pos_nonneg; lia]|].
    rewrite inject_Z_mult, pow2_inject by exact H.
    field. lra.
  - split; [exact Hb|].
    rewrite inject_Z_mult, pow2_inject by lia.
    pose proof (pow2_opp k) as Ho.
    transitivity (inject_Z a * (2 ^ k * 2 ^ (- k)))%Q; [ring|].
    rewrite Ho. field. lra.
Qed.

Lemma inject_Z_pos (z : Z) : (0 < z)%Z -> (0 < inject_Z z)%Q.
Proof. intros H. change 0%Q with (inject_Z 0). now rewrite <- Zlt_Qlt. Qed.


Lemma log2_bounds (p : positive) :
  (2 ^ Z.log2 (Zpos p) <= inject_Z (Zpos p))%Q
  /\ (inject_Z (Zpos p) <= 2 ^ (Z.log2 (Zpos p) + 1))%Q.
Proof.
  pose proof (Z.log2_spec (Zpos p) ltac:(lia)) as [Hlo Hhi].
  pose proof (Z.log2_nonneg (Zpos p)) as Hn.
  rewrite <- !pow2_inject by lia.
  rewrite <- !Zle_Qle. replace (Z.log2 (Zpos p) + 1)%Z
    with (Z.succ (Z.log2 (Zpos p))) by lia. lia.
Qed.


Lemma log2_upper (p : positive) :
  (inject_Z (Zpos p) < 2 ^ (Z.log2 (Zpos p) + 1))%Q.
Proof.
  pose proof (Z.log2_spec (Zpos p) ltac:(lia)) as [_ Hhi].
  pose proof (Z.log2_nonneg (Zpos p)) as Hn.
  rewrite <- pow2_inject by lia.
  rewrite <- Zlt_Qlt. replace (Z.log2 (Zpos p) + 1)%Z
    with (Z.succ (Z.log2 (Zpos p))) by lia. exact Hhi.
Qed.

Lemma binade_upper (a b : positive) : (Zpos a # b < 2 ^ (binade a b + 1))%Q.
Proof.
  unfold binade.
  set (d := (Z.log2 (Zpos a) - Z.log2 (Zpos b))%Z).
  destruct (@scale2_spec (Zpos a) (Zpos b) d ltac:(lia)) as [Hm Hs].
  destruct (scale2 (Zpos a) (Zpos b) d) as [n m]. cbn [fst snd] in Hm, Hs.
  rewrite <- Qmake_Qdiv in Hs.
  pose proof (@inject_Z_pos m Hm) as HM.
  destruct (Z.leb_spec m n) as [Hle|Hgt].
  - pose proof (log2_upper a) as Ha. destruct (log2_bounds b) as [Hb _].
    assert (Hd : (2 ^ (d + 1) * 2 ^ Z.log2 (Zpos b)
                  == 2 ^ (Z.log2 (Zpos a) + 1))%Q).
    { rewrite <- pow2_add. unfold d.
      now replace (Z.log2 (Zpos a) - Z.log2 (Zpos b) + 1
                   + Z.log2 (Zpos b))%Z
        with (Z.log2 (Zpos a) + 1)%Z by lia. }
    pose proof (pow2_pos (d + 1)) as HP.
    pose proof (@inject_Z_pos (Zpos b) ltac:(lia)) as HB.
    apply Qmult_lt_r with (z := inject_Z (Zpos b)); [exact HB|].
    setoid_replace ((Zpos a # b) * inject_Z (Zpos b))%Q
      with (inject_Z (Zpos a)) by (rewrite Qmake_Qdiv; field; lra).
    apply Qlt_le_trans with (y := (2 ^ (d + 1) * 2 ^ Z.log2 (Zpos b))%Q).
    + rewrite Hd. exact Ha.
    + apply Qmult_le_l; [exact HP|exact Hb].
  - replace (d - 1 + 1)%Z with d by lia.
    assert (HQ : (inject_Z n < inject_Z m)%Q) by now rewrite <- Zlt_Qlt.
    pose proof (pow2_pos d) as HP.
    apply Qmult_lt_r with (z := inject_Z m); [exact HM|].
    rewrite <- Hs. rewrite (Qmult_comm (inject_Z n)).
    apply Qmult_lt_l; [exact HP|exact HQ].
Qed.

(** The rounded value is a binary64 number: a significand of at most 53
    bits at the exponent of the argument, or at the least exponent. *)
Lemma round_pos_representable (a b : positive) :
  let k := Z.max (binade a b - 52) (- 1074) in
  exists m : Z,
    round_pos a b = times_pow2 m k /\ (0 <= m <= 2 ^ 53)%Z.
Proof.
  intros k. unfold round_pos. fold k.
  destruct (@scale2_spec (Zpos a) (Zpos b) k ltac:(lia)) as [Hd Hs].
  assert (Hn0 : (0 <= fst (scale2 (Zpos a) (Zpos b) k))%Z).
  { unfold scale2. destruct (0 <=? k)%Z; cbn [fst]; [lia|].
    apply Z.mul_nonneg_nonneg; [lia|]. apply Z.pow_nonneg. lia. }
  destruct (scale2 (Zpos a) (Zpos b) k) as [n d]. cbn [fst snd] in *.
  exists (round_half_even n d). split; [reflexivity|].
  pose proof (@round_half_even_spec n d Hd) as [Hlo Hhi].
  rewrite <- Qmake_Qdiv in Hs.
  assert (Hlt : (n < 2 ^ 53 * d)%Z).
  { rewrite Zlt_Qlt. rewrite inject_Z_mult.
    pose proof (binade_upper a b) as Hup.
    pose proof (pow2_pos k) as HP.
    pose proof (@inject_Z_pos d Hd) as HD.
    assert (Hk : (2 ^ (binade a b + 1) <= 2 ^ k * inject_Z (2 ^ 53))%Q).
    { change (inject_Z (2 ^ 53)) with (2 ^ 53)%Q. rewrite <- pow2_add.
      apply Qpower_le_compat_l; [|discriminate].
      unfold k. lia. }
    apply Qmult_lt_l with (z := (2 ^ k)%Q); [exact HP|].
    rewrite (Qmult_comm (2 ^ k) (inject_Z n)), Hs.
    apply Qlt_le_trans
      with (y := (2 ^ (binade a b + 1) * inject_Z d)%Q).
    - apply Qmult_lt_r; [exact HD|exact Hup].
    - rewrite Qmult_assoc. apply Qmult_le_compat_r; [exact Hk|lra]. }
  nia.
Qed.

(** The rounding on a few decimals, on the sum of 0.1, 0.2 and 0.3
    (0.6000000000000001) and on two ties. *)
Lemma float_round_examples :
  (float_round (1 # 10) == float_0_1)%Q
  /\ (float_round (2 # 10) == float_0_2)%Q
  /\ (float_round (3 # 10) == float_0_3)%Q
  /\ (float_add (float_add float_0_1 float_0_2) float_0_3
      == 1351079888211149 # 2251799813685248)%Q
  /\ (float_round (9007199254740993 # 1) == 9007199254740992 # 1)%Q
  /\ (float_round (9007199254740995 # 1) == 9007199254740996 # 1)%Q.
Proof. vm_compute. repeat split; reflexivity. Qed.

Lemma float_eps_pow2 : (float_eps == 2 ^ (- 53))%Q.
Proof. reflexivity. Qed.

















Lemma py_truediv_mean (r : list Q) (N : Z) :
  List.length r = Z.to_nat N -> (1 <= N)%Z ->
  exists t, py_truediv (py_sum r) N = ret t /\ t = float_mean r.
Proof.
  intros Hlen HN. unfold py_truediv.
  destruct (Z.eqb_spec N 0) as [H0|_]; [lia|].
  eexists. split; [reflexivity|].
  unfold float_mean, py_sum, nat_Q. now rewrite Hlen, Z2Nat.id by lia.
Qed.

Lemma fan_out_keeps_readers_count (E : Env) c f u N s :
  readers_count
    (self (snd (run_in_parallel E c (measure_retrieve_last_timecode E f u)
                  N s)))
  = readers_count (self s).
Proof.
  assert (H : steps keeps_config
                (run_in_parallel E c (measure_retrieve_last_timecode E f u)
                   N)).
  { apply (steps_run_in_parallel (keeps_config_footstep E)); try exact I;
      try (intros; exact I).
    intros c'.
    apply (steps_measure_retrieve_last_timecode (keeps_config_footstep E));
      intros; exact I. }
  apply (H s).
Qed.




(** C7.  Once the clones are made and the pool exists, if the invocation
    of any worker raises, [run_in_parallel] does not return a list: every
    worker still runs to its end, and the call raises the exception of the
    first failed worker in submission order (or never returns, when some
    other worker never does).  [run_parallel_read_tests] lets that
    exception through, for either of its two fan-outs, so no mean is taken
    over the workers that succeeded. *)
Theorem worker_failure_aborts_fan_out
  (E : Env) (client : DBClient) (client_method : DBClient -> M Q)
  (N : Z) (s : St) (cs : list DBClient) (s1 : St) :
  copy_clients E client (Z.to_nat N) s = (Ok cs, s1) ->
  (1 <= N)%Z ->
  let outcomes := fst (pool_map client_method cs (emit (EvPool N) s1)) in
  (exists e, In (Raise e) outcomes) ->
  ~ returns (fst (run_in_parallel E client client_method N s))
  /\ List.length outcomes = List.length cs
  /\ (any_hang outcomes = false ->
      exists e pre post,
        outcomes = pre ++ Raise e :: post
        /\ (forall e', ~ In (Raise e') pre)
        /\ fst (run_in_parallel E client client_method N s) = Raise e)
  /\ (forall f u sx e,
        fst (run_in_parallel E client (measure_retrieve_last_timecode E f u)
               (readers_count (self sx)) sx) = Raise e ->
        fst (run_parallel_read_tests E client f u sx) = Raise e)
  /\ (forall f u sx r1 sy e,
        run_in_parallel E client (measure_retrieve_last_timecode E f u)
          (readers_count (self sx)) sx = (Ok r1, sy) ->
        fst (run_in_parallel E client (measure_retrieve_most_viewed E)
               (readers_count (self sy)) sy) = Raise e ->
        fst (run_parallel_read_tests E client f u sx) = Raise e).
Proof.
  intros Hcopy HN outcomes (e0 & Hin).
  assert (Hrun : fst (run_in_parallel E client client_method N s)
                 = if any_hang outcomes then Hang else list_results outcomes).
  { unfold run_in_parallel, bind, new_pool. rewrite Hcopy.
    destruct (Z.leb_spec N 0) as [Hle|_]; [lia|].
    subst outcomes.
    destruct (pool_map client_method cs (emit (EvPool N) s1)) as [rs s2].
    simpl. now destruct (any_hang rs). }
  split; [|split; [apply pool_map_length|split; [|split]]].
  - intros (ts & Hts). rewrite Hrun in Hts.
    destruct (any_hang outcomes); [discriminate|].
    eapply list_results_not_ok; eauto.
  - intros Hh. rewrite Hrun, Hh.
    destruct (first_failure_some _ _ Hin) as (e & He).
    pose proof (list_results_first_failure _ Hh) as Hl. rewrite He in Hl.
    destruct (first_failure_in _ He) as (pre & post & Hsplit & Hpre).
    exists e, pre, post. auto.
  - intros f u sx e H.
    unfold run_parallel_read_tests, bind, get_self.
    destruct (run_in_parallel E client _ (readers_count (self sx)) sx)
      as [[r|e'|] sy]; simpl in *; congruence.
  - intros f u sx r1 sy e H1 H2.
    assert (Hn : readers_count (self sy) = readers_count (self sx)).
    { pose proof (fan_out_keeps_readers_count E client f u
                    (readers_count (self sx)) sx) as H.
      now rewrite H1 in H. }
    destruct (run_in_parallel_ok_length _ _ _ _ _ H1) as [L1 HN1].
    destruct (py_truediv_mean r1 L1 HN1) as (t1 & D1 & _).
    unfold run_parallel_read_tests, bind, get_self.
    rewrite H1. rewrite Hn at 1. rewrite D1. unfold ret at 1.
    destruct (run_in_parallel E client _ (readers_count (self sy)) sy)
      as [[r|e'|] sz]; simpl in *; congruence.
Qed.

Lemma worker_failure_aborts_fan_out_witness :
  (1 <= 3)%Z /\
  fst (run_in_parallel faulty_env postgres
         (measure_retrieve_most_viewed faulty_env) 3
         (suite_with 1000 2 3 [postgres]))
  = Raise (BackendError 1).
Proof.
  split; [discriminate|].
  set (s := suite_with 1000 2 3 [postgres]).
  destruct (@worker_failure_aborts_fan_out
              faulty_env postgres (measure_retrieve_most_viewed faulty_env)
              3 s (clones_of postgres 300 3)
              (snd (copy_clients faulty_env postgres 3 s)))
    as (_ & _ & Hraise & _).
  - vm_compute; reflexivity.
  - discriminate.
  - exists (BackendError 1). vm_compute. right. left. reflexivity.
  - destruct Hraise as (e & pre & post & Hsplit & Hpre & Hrun);
      [vm_compute; reflexivity|].
    rewrite Hrun. f_equal.
    vm_compute in Hsplit.
    destruct pre as [|o0 [|o1 pre]].
    + discriminate Hsplit.
    + now inversion Hsplit.
    + exfalso. apply (Hpre (BackendError 1)).
      inversion Hsplit. right. left. reflexivity.
Defined.

(** ** Properties of the orchestrator *)

Lemma harmless_run_event c tail f u e : harmless e -> run_event c tail f u e.
Proof.
  destruct e as [| | | | | | | | | | |[]| | | |]; simpl; tauto.
Qed.

Lemma prepare_database_ok (E : Env) (c : DBClient) (rows : list Row) s :
  fault E (ops s) = None ->
  fault E (S (ops s)) = None ->
  fault E (S (S (ops s))) = None ->
  exists s1,
    prepare_database E c rows s = (Ok tt, s1)
    /\ log s1
       = log s ++ [EvConnect (handle c); EvPrepare (handle c);
                   EvInsert (handle c) rows; EvRelease (handle c);
                   EvSleep 1].
Proof.
  intros F0 F1 F2.
  unfold prepare_database, bind, with_connect, client_prepare_database,
    client_insert_data, external, time_sleep.
  rewrite F0. tick_simpl. rewrite F1. tick_simpl. rewrite F2. tick_simpl.
  eexists. split; [reflexivity|]. tick_simpl.
  now rewrite <- !app_assoc.
Qed.

(** C9.  For [rows_count >= 1] (and rows of at least two fields), [run]
    takes the first row off the generated initial data to get [film_id]
    and [user_id]; the only bulk insert it makes itself is the one of the
    PREPARING phase, and it carries the remaining [rows_count - 1] rows,
    the first row not among them; every point read it measures afterwards
    (static, under load, and in each parallel worker) is made with those two
    identifiers. *)
Theorem prepare_inserts_all_but_first_row
  (E : Env) (client : DBClient) (s : St)
  (first : Row) (tail : list Row) (f u : PyVal) (more : list PyVal) :
  (1 <= rows_count (self s))%Z ->
  (forall k n, List.length (test_data E k n) = Z.to_nat n) ->
  test_data E (ops s) (rows_count (self s)) = first :: tail ->
  first = f :: u :: more ->
  let tr := new_events (run_client E client) s in
  Z.of_nat (List.length tail) = (rows_count (self s) - 1)%Z
  /\ Forall (run_event client tail f u) tr
  /\ (fault E (ops s) = None ->
      fault E (S (ops s)) = None ->
      fault E (S (S (ops s))) = None ->
      exists later,
        tr = EvConnect (handle client) :: EvPrepare (handle client)
             :: EvInsert (handle client) tail :: later).
Proof.
  intros Hn Hgen Hdata Hfirst tr.
  set (k := fun (x : Q * Q * Q) (y z : Q * Q) =>
              let '(t1, t2, t3) := x in
              let '(t4, t5) := y in
              let '(t6, t7) := z in
              ret (mkResult (dbms_name client) t1 t2 t3 t4 t5 t6 t7)).
  set (phases :=
         prepare_database E client tail ;;;
         x <- run_static_tests E client f u ;;
         y <- run_stress_tests E client f u ;;
         z <- run_parallel_read_tests E client f u ;;
         k x y z).
  assert (Hrun : run_client E client s = phases s).
  { unfold run_client. unfold bind at 1. unfold get_self.
    unfold bind at 1. unfold gen_test_data. rewrite Hdata.
    unfold bind at 1. unfold py_next, ret at 1. cbn [fst snd].
    unfold bind at 1. rewrite Hfirst. unfold unpack_ids, ret at 1.
    reflexivity. }
  assert (Hk : forall x y z, steps (emits (run_event client tail f u))
                                   (k x y z)).
  { intros [[t1 t2] t3] [t4 t5] [t6 t7].
    apply (steps_ret (emits_footstep E _)). }
  split; [|split].
  - pose proof (Hgen (ops s) (rows_count (self s))) as Hlen.
    rewrite Hdata in Hlen. simpl in Hlen. lia.
  - unfold tr, new_events. rewrite Hrun.
    apply (@emits_new_events _ (run_event client tail f u) phases s).
    apply (steps_phases (emits_footstep E _)
             (@harmless_run_event client tail f u)); simpl; auto.
  - intros F0 F1 F2.
    destruct (prepare_database_ok E client tail s F0 F1 F2)
      as (s1 & Hprep & Hlog1).
    unfold tr, new_events. rewrite Hrun.
    unfold phases. unfold bind at 1. rewrite Hprep.
    match goal with
    | |- context [snd (?m s1)] =>
        assert (Hrest : emits (run_event client tail f u) s1 (snd (m s1)))
    end.
    { apply (steps_bind (emits_footstep E _)).
      - apply (steps_run_static_tests (emits_footstep E _)
                 (@harmless_run_event client tail f u)). simpl; auto.
      - intros x. apply (steps_bind (emits_footstep E _)).
        + apply (steps_run_stress_tests (emits_footstep E _)
                   (@harmless_run_event client tail f u)). simpl; auto.
        + intros y. apply (steps_bind (emits_footstep E _)).
          * apply (steps_run_parallel_read_tests (emits_footstep E _)
                     (@harmless_run_event client tail f u)). simpl; auto.
          * intros z. apply Hk. }
    destruct Hrest as (evs & Hlog & _).
    rewrite Hlog, Hlog1, <- !app_assoc. simpl.
    rewrite (skipn_length_app (log s)). eexists. reflexivity.
Qed.

Lemma sample_data_length (k : nat) (n : Z) :
  List.length (sample_data k n) = Z.to_nat n.
Proof.
  unfold sample_data. generalize (Z.of_nat k * 1000)%Z.
  induction (Z.to_nat n) as [|m IH]; intros i; simpl; auto.
Qed.

Lemma prepare_inserts_all_but_first_row_witness :
  (1 <= 3)%Z /\
  Z.of_nat
    (List.length
       [sample_row 1; sample_row 2]) = (3 - 1)%Z.
Proof.
  split; [discriminate|].
  apply (@prepare_inserts_all_but_first_row
           calm_env postgres (suite_with 3 2 3 [postgres])
           (sample_row 0) [sample_row 1; sample_row 2]
           (PyStr "film") (PyStr "user") [PyInt 0]).
  - discriminate.
  - exact sample_data_length.
  - reflexivity.
  - reflexivity.
Defined.

Lemma keeps_threads_footstep (E : Env) :
  Footstep E not_thread_start keeps_threads.
Proof.
  constructor; unfold keeps_threads; try (intros; reflexivity).
  - intros s1 s2 s3 H1 H2. congruence.
  - intros t s [].
Qed.

Lemma run_stress_tests_started (E : Env) (c : DBClient) (f u : PyVal) s :
  wps (self s) <> 0%Z ->
  fault E (ops s) = None ->
  let producer :=
    ProduceThread (test_data E (ops s) (10 * wps (self s)))
                  (1 / inject_Z (wps (self s))) in
  let consumer := ConsumeThread (mkClient (next_handle s) (dbms_name c)) in
  exists s4,
    run_stress_tests E c f u s = stress_measurements E c f u s4
    /\ threads s4 = threads s ++ [producer; consumer]
    /\ stress_tests_finished (self s4) = false
    /\ keeps_queues s s4.
Proof.
  intros Hw F0 producer consumer.
  eexists. split.
  - unfold run_stress_tests.
    unfold bind at 1. unfold bind at 1. unfold get_self at 1.
    unfold gen_test_data.
    unfold bind at 1. unfold bind at 1. unfold get_self at 1.
    unfold py_truediv_one.
    destruct (Z.eqb_spec (wps (self s)) 0) as [H0|_]; [contradiction|].
    unfold ret at 1.
    unfold bind at 1. unfold client_copy, external. rewrite F0.
    unfold bind at 1. unfold set_stress_tests_finished at 1.
    unfold bind at 1. unfold start_thread at 1.
    unfold bind at 1. unfold start_thread at 1.
    reflexivity.
  - unfold keeps_queues.
    repeat (cbn -[tick Z.mul Qdiv]; autorewrite with tickdb).
    rewrite <- app_assoc. repeat split.
Qed.

Lemma stress_measurements_keeps_threads (E : Env) c f u :
  steps keeps_threads (stress_measurements E c f u).
Proof.
  unfold stress_measurements.
  steps_auto (keeps_threads_footstep E); intros; exact I.
Qed.

Lemma stress_measurements_sets_flag (E : Env) c f u s r s' :
  stress_measurements E c f u s = (Ok r, s') ->
  stress_tests_finished (self s') = true.
Proof.
  unfold stress_measurements. unfold bind at 1.
  destruct (time_sleep E 1 s) as [[[]|e|] s1]; try discriminate.
  unfold bind at 1.
  destruct (with_connect E c _ s1) as [[r'|e|] s2]; try discriminate.
  unfold bind, set_stress_tests_finished, ret. intros H.
  inversion H; subst. reflexivity.
Qed.

(** C10.  For [wps >= 1] (the generator yielding as many rows as asked
    for, and the copy of the handle for the consumer succeeding),
    [run_stress_tests] starts its producer on a stream of exactly
    [10 * wps] rows with period [1 / wps]; whenever and in whatever
    environment that thread runs, [produce] returns after at most
    [10 * wps] iterations of its loop, and it emits the whole stream when it
    never reads the stop flag set. *)
Theorem stress_stream_is_ten_seconds_of_rows
  (E : Env) (client : DBClient) (f u : PyVal) (s : St) :
  (1 <= wps (self s))%Z ->
  (forall k n, List.length (test_data E k n) = Z.to_nat n) ->
  fault E (ops s) = None ->
  let period := (1 / inject_Z (wps (self s)))%Q in
  exists data consumer,
    threads (snd (run_stress_tests E client f u s))
    = threads s ++ [ProduceThread data period; ConsumeThread consumer]
    /\ Z.of_nat (List.length data) = (10 * wps (self s))%Z
    /\ forall E' s',
        let tr := new_events (produce E' data period) s' in
        fst (produce E' data period s') = Ok tt
        /\ (Z.of_nat (List.length (flag_reads tr)) <= 10 * wps (self s))%Z
        /\ (Z.of_nat (List.length (emissions tr)) <= 10 * wps (self s))%Z
        /\ (Forall (fun b => b = false) (flag_reads tr) ->
            map snd (emissions tr) = data).
Proof.
  intros Hw Hgen F0 period.
  assert (Hw0 : wps (self s) <> 0%Z) by lia.
  destruct (run_stress_tests_started E client f u s Hw0 F0)
    as (s4 & Hrun & Hthreads & _ & _).
  exists (test_data E (ops s) (10 * wps (self s))),
         (mkClient (next_handle s) (dbms_name client)).
  assert (Hlen : Z.of_nat (List.length
                             (test_data E (ops s) (10 * wps (self s))))
                 = (10 * wps (self s))%Z).
  { rewrite Hgen. apply Z2Nat.id. lia. }
  split; [|split; [exact Hlen|]].
  - rewrite Hrun.
    rewrite (stress_measurements_keeps_threads E client f u s4).
    exact Hthreads.
  - intros E' s' tr.
    destruct (@produce_run E' period (fun _ => True) (fun _ => I)
                (test_data E (ops s) (10 * wps (self s))) s')
      as (evs & s'' & c' & d & Hp & Hev & Hloop & _).
    fold tr in Hev.
    destruct (loop_run_shape Hloop)
      as (k & Hk & Hputs & Hems & Hflags & Hsl & Hcl & Hacts).
    assert (Hfl : flag_reads tr = flag_reads evs).
    { rewrite Hev. cbn [flag_reads]. rewrite flag_reads_app.
      cbn [flag_reads]. apply app_nil_r. }
    assert (Hem : emissions tr = emissions evs).
    { rewrite Hev. cbn [emissions]. rewrite emissions_app.
      cbn [emissions]. apply app_nil_r. }
    rewrite Hp, Hfl, Hem. split; [reflexivity|].
    assert (Hke : List.length (emissions evs) = k).
    { rewrite <- (length_map snd), Hems, length_firstn. lia. }
    split; [|split].
    + rewrite Hflags, length_app, repeat_length.
      destruct (Nat.ltb_spec k (List.length
                  (test_data E (ops s) (10 * wps (self s)))));
        cbn [List.length]; lia.
    + lia.
    + intros Hall. rewrite Hems, Hflags in *.
      destruct (Nat.ltb_spec k (List.length
                  (test_data E (ops s) (10 * wps (self s)))))
        as [Hlt|Hge].
      * apply Forall_app in Hall. destruct Hall as [_ Hall].
        inversion Hall; discriminate.
      * apply firstn_all2. lia.
Qed.

Lemma stress_stream_is_ten_seconds_of_rows_witness :
  (1 <= 2)%Z /\
  exists data consumer,
    threads (snd (run_stress_tests calm_env postgres
                    (PyStr "film") (PyStr "user")
                    (suite_with 1000 2 3 [postgres])))
    = [ProduceThread data (1 / inject_Z 2); ConsumeThread consumer]
    /\ Z.of_nat (List.length data) = 20%Z.
Proof.
  split; [discriminate|].
  destruct (@stress_stream_is_ten_seconds_of_rows
              calm_env postgres (PyStr "film") (PyStr "user")
              (suite_with 1000 2 3 [postgres]))
    as (data & consumer & Hthreads & Hlen & _).
  - discriminate.
  - exact sample_data_length.
  - reflexivity.
  - exists data, consumer. split; [exact Hthreads|exact Hlen].
Defined.

(** *** One queue for the whole suite *)

Lemma same_frame_tick (E : Env) s : same_frame s (tick E s).
Proof. split; [apply tick_config|repeat split]. Qed.

Lemma same_frame_emit e s : same_frame s (emit e s).
Proof. repeat split. Qed.

Lemma same_frame_emit_all es s : same_frame s (emit_all es s).
Proof. repeat split. Qed.

Lemma same_frame_with_queue q items s :
  q = queue (self s) -> same_frame s (with_queue q items s).
Proof.
  intros ->. repeat split. intros r Hr. simpl.
  destruct (Nat.eqb_spec r (queue (self s))); congruence.
Qed.

Ltac frame_peel :=
  repeat first
    [ apply same_frame_refl
    | eapply same_frame_trans; [|apply same_frame_emit]
    | eapply same_frame_trans; [|apply same_frame_emit_all]
    | eapply same_frame_trans; [|apply same_frame_tick]
    | eapply same_frame_trans;
      [|apply same_frame_with_queue; reflexivity] ].

Lemma consume_frame (E : Env) (c : DBClient) (s : St) :
  same_frame s (snd (consume E c s)).
Proof.
  unfold consume, with_connect, external, insert_data_from_queue.
  destruct (fault E (ops s)); cbn [snd]; [frame_peel|].
  destruct (fault E (ops (emit (EvConnect (handle c)) (tick E s))));
    cbn [snd]; [frame_peel|].
  destruct (iter_queue _) as [rows [rest|e|]]; cbn [snd]; frame_peel.
Qed.

Lemma run_thread_frame (E : Env) (tid : nat) (s : St) :
  let s' := snd (run_thread E tid s) in
  queue (self s') = queue (self s)
  /\ queue_count s' = queue_count s
  /\ forall q, q <> queue (self s) -> queues s' q = queues s q.
Proof.
  unfold run_thread.
  destruct (nth_error (threads s) tid) as [t|]; [|simpl; auto].
  set (s0 := with_threads (mark_scheduled tid (threads s)) s).
  assert (H : same_frame s0 (snd (thread_body E t s0))).
  { destruct t as [data period|c|]; simpl.
    - destruct (@produce_run E period (fun _ => True) (fun _ => I) data s0)
        as (evs & s' & c' & d & Hp & _ & _ & _ & Hframe & _).
      now rewrite Hp.
    - apply consume_frame.
    - apply same_frame_refl. }
  destruct H as ((_ & Hq & _) & Hc & _ & _ & Hother).
  cbv zeta. auto.
Qed.

Lemma run_stress_tests_sets_flag (E : Env) c f u s r s' :
  run_stress_tests E c f u s = (Ok r, s') ->
  stress_tests_finished (self s') = true.
Proof.
  unfold run_stress_tests.
  unfold bind at 1. unfold bind at 1. unfold get_self at 1.
  unfold gen_test_data.
  unfold bind at 1. unfold bind at 1. unfold get_self at 1.
  unfold py_truediv_one.
  destruct (Z.eqb (wps (self s)) 0); [discriminate|].
  unfold ret at 1.
  unfold bind at 1.
  destruct (client_copy E c s) as [[cc|e|] s1]; try discriminate.
  unfold bind at 1. unfold set_stress_tests_finished at 1.
  unfold bind at 1. unfold start_thread at 1.
  unfold bind at 1. unfold start_thread at 1.
  apply stress_measurements_sets_flag.
Qed.

(** C8, as the code has it.  The queue is created once, by [__init__],
    and the stop flag is a field of the suite.  [run], and each stress test
    in it, creates no queue, keeps the queue the suite holds and never
    touches the contents of a queue; a thread started by a stress test,
    whenever it runs, works on the queue the suite holds and on no other.
    A stress test resets the flag to false before it starts its two threads
    and has set it to true when it returns. *)
Theorem one_queue_and_one_flag_for_the_suite (E : Env) :
  (forall rows w r s,
      let s' := snd (TestSuite_init rows w r s) in
      queue (self s') = queue_count s
      /\ queue_count s' = S (queue_count s)
      /\ queues s' (queue (self s')) = []
      /\ stress_tests_finished (self s') = false)
  /\ steps keeps_queues (run E)
  /\ (forall c f u, steps keeps_queues (run_stress_tests E c f u))
  /\ (forall s, Forall not_new_queue (new_events (run E) s))
  /\ (forall tid s,
        let s' := snd (run_thread E tid s) in
        queue (self s') = queue (self s)
        /\ queue_count s' = queue_count s
        /\ forall q, q <> queue (self s) -> queues s' q = queues s q)
  /\ (forall c f u s,
        wps (self s) <> 0%Z -> fault E (ops s) = None ->
        exists s4 producer consumer,
          run_stress_tests E c f u s = stress_measurements E c f u s4
          /\ threads s4 = threads s ++ [producer; consumer]
          /\ stress_tests_finished (self s4) = false)
  /\ (forall c f u s r s',
        run_stress_tests E c f u s = (Ok r, s') ->
        stress_tests_finished (self s') = true).
Proof.
  split; [|split; [|split; [|split; [|split; [|split]]]]].
  - intros rows w r s. cbn. rewrite Nat.eqb_refl. auto.
  - apply (steps_run (keeps_queues_footstep E)); intros; exact I.
  - intros c f u.
    apply (steps_run_stress_tests (keeps_queues_footstep E)); intros; exact I.
  - intros s.
    apply (@emits_new_events _ not_new_queue (run E) s).
    apply (steps_run (emits_footstep E not_new_queue)).
    + intros [] H; simpl in *; tauto.
    + intros; exact I.
    + intros; exact I.
  - intros tid s. apply run_thread_frame.
  - intros c f u s Hw F0.
    destruct (run_stress_tests_started E c f u s Hw F0)
      as (s4 & Hrun & Hthreads & Hflag & _).
    exists s4. eexists. eexists.
    split; [exact Hrun|split; [exact Hthreads|exact Hflag]].
  - intros c f u s r s'. apply run_stress_tests_sets_flag.
Qed.

(** C8, as stated, fails.  A suite with one backend runs twice.  No queue
    is created after the constructor's.  The producer of the first stress
    test, which nothing waits for, gets to run only after the first run has
    ended: it finds the flag set and puts its sentinel on the suite's queue.
    The second stress test finds that sentinel on its queue, and its
    consumer returns on it at once, having forwarded nothing, before its own
    producer has run. *)
Lemma stress_tests_share_one_queue :
  let s0 := suite_with 3 1 1 [postgres] in
  let s1 := snd (run calm_env s0) in
  let s2 := snd (run_thread calm_env 0 s1) in
  let s3 := snd (run calm_env s2) in
  (exists r, fst (run calm_env s0) = Ok [r])
  /\ (exists r, fst (run calm_env s2) = Ok [r])
  /\ ~ creates_its_own_queue calm_env postgres (PyStr "film") (PyStr "user")
         s0
  /\ queue_count s3 = 1%nat
  /\ queue (self s3) = queue (self s0)
  /\ (exists d p, nth_error (threads s1) 0 = Some (ProduceThread d p))
  /\ queues s0 (queue (self s0)) = []
  /\ queues s2 (queue (self s2)) = [None]
  /\ queues s3 (queue (self s3)) = [None]
  /\ exists c,
      nth_error (threads s3) 3 = Some (ConsumeThread c)
      /\ fst (run_thread calm_env 3 s3) = Ok tt
      /\ new_events (run_thread calm_env 3) s3
         = [EvConnect (handle c); EvGet (queue (self s3)) None;
            EvInsert (handle c) []; EvRelease (handle c)].
Proof.
  cbv zeta.
  split; [eexists; vm_compute; reflexivity|].
  split; [eexists; vm_compute; reflexivity|].
  split; [unfold creates_its_own_queue; vm_compute; lia|].
  split; [vm_compute; reflexivity|].
  split; [vm_compute; reflexivity|].
  split; [eexists; eexists; vm_compute; reflexivity|].
  split; [vm_compute; reflexivity|].
  split; [vm_compute; reflexivity|].
  split; [vm_compute; reflexivity|].
  eexists. split; [vm_compute; reflexivity|].
  split; vm_compute; reflexivity.
Qed.

(** * Further properties of the suite *)

(** ** The producer keeps to its schedule *)






(** ** The producer and the consumer, one after the other *)

Lemma iter_queue_stream (rows : list Row) (rest : list QItem) :
  iter_queue (map Some rows ++ None :: rest) = (rows, Ok rest).
Proof.
  induction rows as [|row rows IH]; simpl; [reflexivity|].
  now rewrite IH.
Qed.

Lemma values_read_stream (rows : list Row) (rest : list QItem) :
  values_read (map Some rows ++ None :: rest) = map Some rows ++ [None].
Proof.
  induction rows as [|row rows IH]; simpl; [reflexivity|].
  now rewrite IH.
Qed.

Lemma consume_stream (E : Env) (c : DBClient) (s : St)
  (rows : list Row) (rest : list QItem) :
  queues s (queue (self s)) = map Some rows ++ None :: rest ->
  fault E (ops s) = None -> fault E (S (ops s)) = None ->
  fst (consume E c s) = Ok tt
  /\ new_events (consume E c) s
     = EvConnect (handle c)
       :: map (EvGet (queue (self s))) (map Some rows ++ [None])
       ++ [EvInsert (handle c) rows; EvRelease (handle c)]
  /\ queues (snd (consume E c s)) (queue (self s)) = rest.
Proof.
  intros Hq F1 F2.
  unfold consume, with_connect, external, new_events,
    insert_data_from_queue.
  rewrite F1. tick_simpl. rewrite F2, Hq.
  rewrite iter_queue_stream, values_read_stream.
  tick_simpl. rewrite Nat.eqb_refl.
  split; [reflexivity|]. split; [|reflexivity].
  rewrite <- !app_assoc. apply (skipn_length_app (log s)).
Qed.

(** X2. Whatever rows wait on the queue (no sentinel among them), a
    consumer that runs after the producer has finished hands to
    [insert_data] those rows followed by exactly the rows the producer
    emitted, in order, returns on the producer's sentinel, and leaves
    the queue empty. *)
Theorem produce_then_consume_round_trip
  (E E' : Env) (data : list Row) (period : Q) (c : DBClient) (s : St)
  (pending : list Row) :
  queues s (queue (self s)) = map Some pending ->
  let s1 := snd (produce E data period s) in
  let emitted := map snd (emissions (new_events (produce E data period) s)) in
  fault E' (ops s1) = None -> fault E' (S (ops s1)) = None ->
  fst (consume E' c s1) = Ok tt
  /\ new_events (consume E' c) s1
     = EvConnect (handle c)
       :: map (EvGet (queue (self s)))
              (map Some (pending ++ emitted) ++ [None])
       ++ [EvInsert (handle c) (pending ++ emitted); EvRelease (handle c)]
  /\ queues (snd (consume E' c s1)) (queue (self s)) = [].
Proof.
  intros Hq s1 emitted F1 F2.
  destruct (@produce_run E period (fun _ => True) (fun _ => I) data s)
    as (evs & s' & c' & d & Hrun & Hev & Hloop & _ & Hframe & Hqs & _).
  destruct (loop_run_shape Hloop)
    as (k & Hk & Hputs & Hems & _).
  assert (Hs1 : s1 = s') by (unfold s1; now rewrite Hrun).
  assert (Hemitted : emitted = firstn k data).
  { unfold emitted. rewrite Hev. cbn [emissions].
    rewrite emissions_app. cbn [emissions]. now rewrite app_nil_r. }
  assert (Hqueue : queue (self s1) = queue (self s)).
  { rewrite Hs1. apply Hframe. }
  assert (Hcontents : queues s1 (queue (self s1))
                      = map Some (pending ++ emitted) ++ None :: []).
  { rewrite Hqueue, Hs1, Hqs, Hq, Hputs, Hemitted, map_app.
    now rewrite <- app_assoc. }
  destruct (consume_stream E' c s1 (pending ++ emitted) [] Hcontents F1 F2)
    as (Hok & Hevs & Hleft).
  rewrite Hqueue in Hevs, Hleft. auto.
Qed.

Lemma produce_then_consume_round_trip_witness :
  fst (consume calm_env postgres
         (snd (produce calm_env (sample_data 0 3) (1 # 2)
                 (suite_with 1000 2 4 [postgres])))) = Ok tt.
Proof.
  apply (@produce_then_consume_round_trip
           calm_env calm_env (sample_data 0 3) (1 # 2) postgres
           (suite_with 1000 2 4 [postgres]) []); reflexivity.
Defined.

(** ** A whole run *)


Section Phases.

Variable E : Env.
Variable okev : Event -> Prop.
Variable R : St -> St -> Prop.
Hypothesis F : Footstep E okev R.
Hypothesis Hquiet : forall e, quiet_event e -> okev e.
Hypothesis Hinsert : forall h rows, okev (EvInsert h rows).
Hypothesis Hread :
  forall f u h n t, okev (EvMeasure (OpRetrieveLastTimecode f u) h n t).

Lemma phase_prepare_database (c : DBClient) (rows : list Row) :
  steps R (prepare_database E c rows).
Proof.
  unfold prepare_database.
  steps_auto F; try (intros; apply Hquiet; exact I); apply Hinsert.
Qed.

Lemma phase_run_static_tests (c : DBClient) (f u : PyVal) :
  steps R (run_static_tests E c f u).
Proof.
  unfold run_static_tests.
  steps_auto F; try (intros; apply Hquiet; exact I); intros; apply Hread.
Qed.

Lemma phase_stress_measurements (c : DBClient) (f u : PyVal) :
  steps R (stress_measurements E c f u).
Proof.
  unfold stress_measurements.
  steps_auto F; try (intros; apply Hquiet; exact I); intros; apply Hread.
Qed.

Lemma phase_run_parallel_read_tests (c : DBClient) (f u : PyVal) :
  steps R (run_parallel_read_tests E c f u).
Proof.
  unfold run_parallel_read_tests.
  steps_auto F; try (intros; apply Hquiet; exact I).
  - intros c'. unfold measure_retrieve_last_timecode.
    steps_auto F; try (intros; apply Hquiet; exact I); intros; apply Hread.
  - intros c'. unfold measure_retrieve_most_viewed.
    steps_auto F; intros; apply Hquiet; exact I.
Qed.

Hypothesis Hstart : forall tid t, okev (EvThreadStart tid t).

Lemma phase_run_stress_tests (c : DBClient) (f u : PyVal) :
  steps R (run_stress_tests E c f u).
Proof.
  unfold run_stress_tests.
  steps_auto F; try (intros; apply Hquiet; exact I);
    try (intros; apply Hstart); intros; apply Hread.
Qed.

Lemma phase_run_client (c : DBClient) : steps R (run_client E c).
Proof.
  unfold run_client.
  apply (steps_bind F); [apply (steps_get_self F)|]. intros n.
  apply (steps_bind F); [apply (steps_gen_test_data F)|]. intros d.
  apply (steps_bind F); [apply (steps_py_next F)|]. intros first.
  apply (steps_bind F); [apply (steps_unpack_ids F)|]. intros ids.
  apply (steps_bind F); [apply phase_prepare_database|]. intros _.
  apply (steps_bind F); [apply phase_run_static_tests|].
  intros [[t1 t2] t3].
  apply (steps_bind F); [apply phase_run_stress_tests|]. intros [t4 t5].
  apply (steps_bind F); [apply phase_run_parallel_read_tests|].
  intros [t6 t7]. apply (steps_ret F).
Qed.

End Phases.


Section NoFault.

Variable E : Env.
Hypothesis Hnf : no_fault E.

Lemma succeeds_ret {A} (a : A) : succeeds (ret a).
Proof. intros s. now exists a. Qed.

Lemma succeeds_bind {A B} (m : M A) (k : A -> M B) :
  succeeds m -> (forall a, succeeds (k a)) -> succeeds (bind m k).
Proof.
  intros Hm Hk s. unfold bind. destruct (Hm s) as (a & Ha).
  destruct (m s) as [r s1]. simpl in Ha. subst r. apply Hk.
Qed.

Lemma succeeds_external {A} (a : St -> A) (after : A -> St -> St) :
  succeeds (external E a after).
Proof.
  intros s. unfold external. rewrite (Hnf (ops s)). simpl.
  eexists; reflexivity.
Qed.

Lemma succeeds_time_sleep (d : Q) : (0 <= d)%Q -> succeeds (time_sleep E d).
Proof.
  intros Hd s. unfold time_sleep.
  apply Qle_bool_iff in Hd. rewrite Hd. simpl. now exists tt.
Qed.

Lemma succeeds_with_connect {A} (c : DBClient) (body : M A) :
  succeeds body -> succeeds (with_connect E c body).
Proof.
  intros Hb s. unfold with_connect, external. rewrite (Hnf (ops s)).
  destruct (Hb (emit (EvConnect (handle c)) (tick E s))) as (a & Ha).
  destruct (body _) as [r s2]. simpl in Ha. subst r. simpl.
  now exists a.
Qed.

Lemma succeeds_prepare_database c rows :
  succeeds (prepare_database E c rows).
Proof.
  unfold prepare_database.
  apply succeeds_bind; [|intros; apply succeeds_time_sleep; discriminate].
  apply succeeds_with_connect.
  apply succeeds_bind; [apply succeeds_external|].
  intros _. apply succeeds_external.
Qed.

Lemma succeeds_run_static_tests c f u : succeeds (run_static_tests E c f u).
Proof.
  unfold run_static_tests. apply succeeds_with_connect.
  apply succeeds_bind; [intros s; eexists; reflexivity|]. intros data.
  apply succeeds_bind; [apply succeeds_external|]. intros t1.
  apply succeeds_bind; [apply succeeds_time_sleep; discriminate|]. intros _.
  apply succeeds_bind; [apply succeeds_external|]. intros t2.
  apply succeeds_bind; [apply succeeds_external|]. intros t3.
  apply succeeds_ret.
Qed.

Lemma succeeds_stress_measurements c f u :
  succeeds (stress_measurements E c f u).
Proof.
  unfold stress_measurements.
  apply succeeds_bind; [apply succeeds_time_sleep; discriminate|]. intros _.
  apply succeeds_bind.
  - apply succeeds_with_connect.
    apply succeeds_bind; [apply succeeds_external|]. intros t1.
    apply succeeds_bind; [apply succeeds_external|]. intros t2.
    apply succeeds_ret.
  - intros r. apply succeeds_bind; [intros s; now exists tt|].
    intros _. apply succeeds_ret.
Qed.

Lemma succeeds_measure_retrieve_last_timecode f u c :
  succeeds (measure_retrieve_last_timecode E f u c).
Proof.
  unfold measure_retrieve_last_timecode.
  apply succeeds_with_connect, succeeds_external.
Qed.

Lemma succeeds_measure_retrieve_most_viewed c :
  succeeds (measure_retrieve_most_viewed E c).
Proof.
  unfold measure_retrieve_most_viewed.
  apply succeeds_with_connect, succeeds_external.
Qed.

Lemma run_in_parallel_ok (c : DBClient) (f : DBClient -> M Q) (N : Z) s :
  (1 <= N)%Z ->
  (forall c', succeeds (f c')) ->
  exists results s', run_in_parallel E c f N s = (Ok results, s').
Proof.
  intros HN Hf.
  destruct (@copy_clients_spec E c (Z.to_nat N) s (fun i _ => Hnf _))
    as (s1 & Hcopy & _).
  unfold run_in_parallel, bind, new_pool. rewrite Hcopy.
  destruct (Z.leb_spec N 0) as [Hle|_]; [lia|].
  generalize (clones_of c (next_handle s) (Z.to_nat N)).
  generalize (emit (EvPool N) s1).
  intros s2 cs.
  assert (Hall : exists ts, fst (pool_map f cs s2) = map Ok ts).
  { revert s2. induction cs as [|c0 cs IH]; intros s2; simpl.
    - now exists [].
    - destruct (Hf c0 (emit (EvSubmit (handle c0)) s2)) as (t & Ht).
      destruct (f c0 _) as [r s3]. simpl in Ht. subst r.
      destruct (IH s3) as (ts & Hts).
      destruct (pool_map f cs s3) as [rs s4]. simpl in *.
      exists (t :: ts). now rewrite Hts. }
  destruct Hall as (ts & Hts).
  destruct (pool_map f cs s2) as [rs s3]. simpl in Hts. subst rs.
  rewrite any_hang_all_ok, list_results_all_ok. eauto.
Qed.

Lemma run_parallel_read_tests_ok (c : DBClient) (f u : PyVal) s :
  (1 <= readers_count (self s))%Z ->
  exists z s', run_parallel_read_tests E c f u s = (Ok z, s').
Proof.
  intros HN.
  destruct (run_in_parallel_ok c (measure_retrieve_last_timecode E f u)
              s HN (succeeds_measure_retrieve_last_timecode f u))
    as (r1 & s1 & H1).
  assert (Hn1 : readers_count (self s1) = readers_count (self s)).
  { pose proof (fan_out_keeps_readers_count E c f u
                  (readers_count (self s)) s) as H.
    now rewrite H1 in H. }
  assert (HN1 : (1 <= readers_count (self s1))%Z) by lia.
  destruct (run_in_parallel_ok c (measure_retrieve_most_viewed E)
              s1 HN1 succeeds_measure_retrieve_most_viewed)
    as (r2 & s2 & H2).
  assert (Hn2 : readers_count (self s2) = readers_count (self s1)).
  { assert (H : steps keeps_config
                  (run_in_parallel E c (measure_retrieve_most_viewed E)
                     (readers_count (self s1)))).
    { apply (steps_run_in_parallel (keeps_config_footstep E)); try exact I;
        try (intros; exact I).
      intros c'.
      apply (steps_measure_retrieve_most_viewed (keeps_config_footstep E));
        intros; exact I. }
    specialize (H s1). rewrite H2 in H. apply H. }
  destruct (run_in_parallel_ok_length _ _ _ _ _ H1) as [L1 _].
  destruct (run_in_parallel_ok_length _ _ _ _ _ H2) as [L2 _].
  destruct (py_truediv_mean r1 L1 HN) as (t1 & D1 & _).
  destruct (py_truediv_mean r2 L2 HN1) as (t2 & D2 & _).
  exists (t1, t2), s2.
  unfold run_parallel_read_tests, bind, get_self.
  rewrite H1, Hn1, D1. unfold ret at 1. rewrite H2, Hn2, D2.
  reflexivity.
Qed.

End NoFault.

Lemma yields_app tr1 tr2 : yields (tr1 ++ tr2) = yields tr1 ++ yields tr2.
Proof.
  induction tr1 as [|[] tr1 IH]; simpl; auto. now rewrite IH.
Qed.

Lemma yields_none (evs : list Event) : Forall not_yield evs -> yields evs = [].
Proof.
  induction 1 as [|e evs He _ IH]; simpl; [reflexivity|].
  destruct e; simpl in *; auto. contradiction.
Qed.

Lemma quiet_not_thread_start e : quiet_event e -> not_thread_start e.
Proof. destruct e; simpl; tauto. Qed.

Lemma quiet_not_yield e : quiet_event e -> not_yield e.
Proof. destruct e; simpl; tauto. Qed.

Lemma run_client_keeps_config (E : Env) c : steps keeps_config (run_client E c).
Proof.
  apply (phase_run_client (keeps_config_footstep E)); intros; exact I.
Qed.

Lemma run_client_yields_nothing (E : Env) c :
  steps (emits not_yield) (run_client E c).
Proof.
  apply (phase_run_client (emits_footstep E not_yield));
    try (intros; exact I).
  apply quiet_not_yield.
Qed.

(** The record [run] builds for a client carries the client's name. *)
Lemma run_client_name (E : Env) c s r s' :
  run_client E c s = (Ok r, s') -> res_dbms_name r = dbms_name c.
Proof.
  unfold run_client. unfold bind at 1. unfold get_self.
  unfold bind at 1. unfold gen_test_data.
  unfold bind at 1.
  destruct (py_next _ s) as [[first|e|] sa]; try discriminate.
  unfold bind at 1.
  destruct (unpack_ids (fst first) sa) as [[ids|e|] sb]; try discriminate.
  unfold bind at 1.
  destruct (prepare_database _ _ _ sb) as [[[]|e|] sc]; try discriminate.
  unfold bind at 1.
  destruct (run_static_tests _ _ _ _ sc) as [[[[t1 t2] t3]|e|] sd];
    try discriminate.
  unfold bind at 1.
  destruct (run_stress_tests _ _ _ _ sd) as [[[t4 t5]|e|] se];
    try discriminate.
  unfold bind at 1.
  destruct (run_parallel_read_tests _ _ _ _ se) as [[[t6 t7]|e|] sf];
    try discriminate.
  unfold ret. intros Heq. inversion Heq; subst. reflexivity.
Qed.

Lemma runnable_config t t' : same_config t t' -> runnable t -> runnable t'.
Proof.
  intros (_ & _ & Hr & Hw & Hn) (A & B & C). unfold runnable.
  rewrite Hr, Hw, Hn. auto.
Qed.

Lemma run_client_ok (E : Env) (c : DBClient) (s : St) :
  no_fault E -> generates_rows E -> runnable (self s) ->
  exists r s' p q,
    run_client E c s = (Ok r, s')
    /\ threads s' = threads s ++ [p; q].
Proof.
  intros Hnf Hgen (Hrows & Hwps & Hreaders).
  destruct (Hgen (ops s) (rows_count (self s)) Hrows)
    as (f & u & more & tail & Hdata).
  set (k := fun (x : Q * Q * Q) (y z : Q * Q) =>
              let '(t1, t2, t3) := x in
              let '(t4, t5) := y in
              let '(t6, t7) := z in
              ret (mkResult (dbms_name c) t1 t2 t3 t4 t5 t6 t7)).
  set (phases :=
         prepare_database E c tail ;;;
         x <- run_static_tests E c f u ;;
         y <- run_stress_tests E c f u ;;
         z <- run_parallel_read_tests E c f u ;;
         k x y z).
  assert (Hrun : run_client E c s = phases s).
  { unfold run_client. unfold bind at 1. unfold get_self.
    unfold bind at 1. unfold gen_test_data. rewrite Hdata.
    unfold bind at 1. unfold py_next, ret at 1. cbn [fst snd].
    unfold bind at 1. unfold unpack_ids, ret at 1.
    reflexivity. }
  rewrite Hrun. unfold phases.
  (* PREPARING *)
  unfold bind at 1.
  destruct (succeeds_prepare_database Hnf c tail s) as ([] & Hp).
  pose proof (phase_prepare_database (keeps_config_footstep E)
                (fun _ _ => I) (fun _ _ => I) c tail s) as C1.
  pose proof (phase_prepare_database (keeps_threads_footstep E)
                quiet_not_thread_start (fun _ _ => I) c tail s) as T1.
  destruct (prepare_database E c tail s) as [r1 s1]. simpl in Hp, C1, T1.
  subst r1. cbv beta iota.
  (* STATIC *)
  unfold bind at 1.
  destruct (succeeds_run_static_tests Hnf c f u s1) as (x & Hx).
  pose proof (phase_run_static_tests (keeps_config_footstep E)
                (fun _ _ => I) (fun _ _ _ _ _ => I) c f u s1) as C2.
  pose proof (phase_run_static_tests (keeps_threads_footstep E)
                quiet_not_thread_start (fun _ _ _ _ _ => I) c f u s1) as T2.
  destruct (run_static_tests E c f u s1) as [r2 s2]. simpl in Hx, C2, T2.
  subst r2. cbv beta iota.
  (* STRESS *)
  unfold bind at 1.
  assert (Hw2 : wps (self s2) <> 0%Z).
  { destruct C1 as (_ & _ & _ & W1 & _). destruct C2 as (_ & _ & _ & W2 & _).
    congruence. }
  destruct (run_stress_tests_started E c f u s2 Hw2 (Hnf _))
    as (s2' & Hst & Hth & _ & _).
  destruct (succeeds_stress_measurements Hnf c f u s2') as (y & Hy).
  pose proof (stress_measurements_keeps_threads E c f u s2') as T3.
  pose proof (phase_run_stress_tests (keeps_config_footstep E)
                (fun _ _ => I) (fun _ _ _ _ _ => I) (fun _ _ => I)
                c f u s2) as C3.
  rewrite Hst in *.
  destruct (stress_measurements E c f u s2') as [r3 s3].
  simpl in Hy, C3, T3. subst r3. cbv beta iota.
  (* PARALLEL *)
  unfold bind at 1.
  assert (Hn3 : (1 <= readers_count (self s3))%Z).
  { destruct C1 as (_ & _ & _ & _ & N1). destruct C2 as (_ & _ & _ & _ & N2).
    destruct C3 as (_ & _ & _ & _ & N3). unfold keeps_config in *.
    rewrite N3, N2, N1. exact Hreaders. }
  destruct (run_parallel_read_tests_ok Hnf c f u s3 Hn3) as (z & s4 & Hz).
  pose proof (phase_run_parallel_read_tests (keeps_threads_footstep E)
                quiet_not_thread_start (fun _ _ _ _ _ => I) c f u s3) as T4.
  rewrite Hz in *. simpl in T4. cbv beta iota.
  destruct x as [[t1 t2] t3], y as [t4 t5], z as [t6 t7].
  do 4 eexists. split; [reflexivity|].
  unfold keeps_threads in *. rewrite T4, T3, Hth, T2, T1. reflexivity.
Qed.

Lemma run_clients_ok (E : Env) (cs : list DBClient) :
  no_fault E -> generates_rows E ->
  forall s, runnable (self s) ->
  exists rs s',
    run_clients E cs s = (Ok rs, s')
    /\ List.length (threads s')
       = (List.length (threads s) + 2 * List.length cs)%nat.
Proof.
  intros Hnf Hgen. induction cs as [|c cs IH]; intros s Hgood.
  - exists [], s. simpl. split; [reflexivity|lia].
  - destruct (run_client_ok c s Hnf Hgen Hgood)
      as (r & s1 & p & q & Hrun & Hth).
    pose proof (run_client_keeps_config E c s) as Hc.
    rewrite Hrun in Hc. simpl in Hc.
    assert (Hgood1 : runnable (self (emit (EvYield r) s1))).
    { simpl. eapply runnable_config; eauto. }
    destruct (IH _ Hgood1) as (rs & s2 & Hrest & Hlen).
    exists (r :: rs), s2.
    simpl. unfold bind at 1. rewrite Hrun.
    unfold bind at 1. unfold yield at 1.
    unfold bind at 1. rewrite Hrest. unfold ret.
    split; [reflexivity|].
    rewrite Hlen. simpl. rewrite Hth, length_app. simpl. lia.
Qed.

Lemma run_clients_cons (E : Env) c cs s :
  run_clients E (c :: cs) s
  = match run_client E c s with
    | (Ok r, s1) =>
        match run_clients E cs (emit (EvYield r) s1) with
        | (Ok rs, s2) => (Ok (r :: rs), s2)
        | (Raise e, s2) => (Raise e, s2)
        | (Hang, s2) => (Hang, s2)
        end
    | (Raise e, s1) => (Raise e, s1)
    | (Hang, s1) => (Hang, s1)
    end.
Proof.
  simpl. unfold bind at 1.
  destruct (run_client E c s) as [[r|e|] s1]; reflexivity.
Qed.

Lemma run_clients_yields (E : Env) (cs : list DBClient) :
  forall s,
  exists evs n,
    log (snd (run_clients E cs s)) = log s ++ evs
    /\ map res_dbms_name (yields evs) = firstn n (map dbms_name cs)
    /\ (forall rs,
          fst (run_clients E cs s) = Ok rs ->
          yields evs = rs /\ n = List.length cs).
Proof.
  induction cs as [|c cs IH]; intros s.
  - exists [], 0%nat. simpl. rewrite app_nil_r.
    split; [reflexivity|]. split; [reflexivity|].
    intros rs H. inversion H. auto.
  - rewrite run_clients_cons.
    destruct (run_client_yields_nothing E c s) as (e1 & Hl1 & Hy1).
    apply yields_none in Hy1.
    destruct (run_client E c s) as [[r|e|] s1] eqn:Hrun; simpl in Hl1.
    + apply run_client_name in Hrun.
      destruct (IH (emit (EvYield r) s1)) as (e2 & n & Hl2 & Hn & Hok).
      exists (e1 ++ EvYield r :: e2), (S n).
      assert (Hlog : forall s2,
                 log s2 = log (emit (EvYield r) s1) ++ e2 ->
                 log s2 = log s ++ e1 ++ EvYield r :: e2).
      { intros s2 H2. rewrite H2. simpl. rewrite Hl1.
        now rewrite <- !app_assoc. }
      assert (Hnames : map res_dbms_name (yields (e1 ++ EvYield r :: e2))
                       = firstn (S n) (map dbms_name (c :: cs))).
      { rewrite yields_app, Hy1. simpl. now rewrite Hn, Hrun. }
      destruct (run_clients E cs (emit (EvYield r) s1)) as [[rs|e|] s2];
        simpl in Hl2, Hok; simpl fst; simpl snd.
      * split; [now apply Hlog|]. split; [exact Hnames|].
        intros rs' H. inversion H; subst.
        destruct (Hok rs eq_refl) as [Hrs ->].
        rewrite yields_app, Hy1. simpl. now rewrite Hrs.
      * split; [now apply Hlog|]. split; [exact Hnames|]. discriminate.
      * split; [now apply Hlog|]. split; [exact Hnames|]. discriminate.
    + exists e1, 0%nat. simpl. rewrite Hy1.
      split; [exact Hl1|]. split; [reflexivity|]. discriminate.
    + exists e1, 0%nat. simpl. rewrite Hy1.
      split; [exact Hl1|]. split; [reflexivity|]. discriminate.
Qed.

(** X3. However a run ends, the records it has yielded are named after a
    prefix of the registered clients, in the order of registration; when
    it returns, it has yielded exactly one record per registered client,
    the same client registered twice being run twice. *)
Theorem run_yields_records_in_registration_order (E : Env) (s : St) :
  let tr := new_events (run E) s in
  (exists n,
      map res_dbms_name (yields tr)
      = firstn n (map dbms_name (clients (self s))))
  /\ (forall rs,
        fst (run E s) = Ok rs ->
        yields tr = rs
        /\ map res_dbms_name rs = map dbms_name (clients (self s)))
  /\ (forall c,
        clients (self (snd (register c s))) = clients (self s) ++ [c]).
Proof.
  intros tr.
  destruct (run_clients_yields E (clients (self s)) s)
    as (evs & n & Hlog & Hn & Hok).
  assert (Htr : tr = evs).
  { unfold tr, new_events, run. rewrite Hlog. apply skipn_length_app. }
  rewrite Htr. split; [eauto|]. split; [|reflexivity].
  intros rs Hrs. destruct (Hok rs Hrs) as [Hy ->].
  split; [exact Hy|].
  rewrite <- Hy, Hn. apply firstn_all2. now rewrite length_map.
Qed.

(** X4. When no backend call fails, the generator yields rows of at
    least two fields, [rows_count >= 1], [wps <> 0] and [readers_count
    >= 1], [run] returns one record per registered client and has
    started two threads per client. *)
Theorem run_returns_a_record_per_client (E : Env) (s : St) :
  no_fault E -> generates_rows E -> runnable (self s) ->
  exists rs,
    fst (run E s) = Ok rs
    /\ List.length rs = List.length (clients (self s))
    /\ List.length (threads (snd (run E s)))
       = (List.length (threads s) + 2 * List.length (clients (self s)))%nat.
Proof.
  intros Hnf Hgen Hgood.
  destruct (run_clients_ok (clients (self s)) Hnf Hgen s Hgood)
    as (rs & s' & Hrun & Hth).
  destruct (run_clients_yields E (clients (self s)) s)
    as (evs & n & _ & Hn & Hok).
  exists rs. unfold run. rewrite Hrun. simpl.
  split; [reflexivity|]. split; [|exact Hth].
  destruct (Hok rs) as [Hy ->]; [now rewrite Hrun|].
  rewrite Hy in Hn. rewrite firstn_all2 in Hn by (rewrite length_map; lia).
  apply (f_equal (@List.length _)) in Hn. now rewrite !length_map in Hn.
Qed.

Lemma sample_data_generates_rows (k : nat) (n : Z) :
  (1 <= n)%Z ->
  exists f u more tail, sample_data k n = (f :: u :: more) :: tail.
Proof.
  intros Hn. unfold sample_data.
  destruct (Z.to_nat n) as [|m] eqn:Hm; [lia|].
  simpl. unfold sample_row. do 4 eexists. reflexivity.
Qed.

Lemma run_returns_a_record_per_client_witness :
  exists rs,
    fst (run calm_env (suite_with 3 1 2 [postgres; postgres])) = Ok rs
    /\ List.length rs = 2%nat.
Proof.
  destruct (@run_returns_a_record_per_client calm_env
              (suite_with 3 1 2 [postgres; postgres]))
    as (rs & Hrun & Hlen & _).
  - intros n. reflexivity.
  - exact sample_data_generates_rows.
  - repeat split; discriminate.
  - exists rs. split; [exact Hrun|exact Hlen].
Defined.

(** ** A stress test whose measurement fails *)

Lemma stress_measurements_failure_keeps_flag (E : Env) c f u s e s' :
  undisturbed E ->
  stress_measurements E c f u s = (Raise e, s') ->
  stress_tests_finished (self s') = stress_tests_finished (self s).
Proof.
  intros Hu.
  unfold stress_measurements, time_sleep.
  change (Qle_bool 0 1) with true. cbv iota.
  unfold bind at 1. cbv beta iota zeta.
  unfold bind at 1. unfold with_connect, external at 1.
  set (s1 := emit (EvSleep 1) _).
  assert (H1 : stress_tests_finished (self s1)
               = stress_tests_finished (self s)).
  { subst s1. cbn -[tick]. now apply undisturbed_tick. }
  destruct (fault E (ops s1)) as [e1|].
  { intros H. inversion H. now rewrite (undisturbed_tick _ Hu). }
  cbv beta iota zeta.
  set (s2 := emit (EvConnect (handle c)) _).
  assert (H2 : stress_tests_finished (self s2)
               = stress_tests_finished (self s)).
  { subst s2. cbn -[tick]. now rewrite (undisturbed_tick _ Hu). }
  unfold bind at 1. unfold measure_time at 1, external at 1.
  destruct (fault E (ops s2)) as [e2|].
  { intros H. inversion H. cbn -[tick].
    now rewrite (undisturbed_tick _ Hu). }
  cbv beta iota zeta.
  set (s3 := emit _ (tick E s2)).
  assert (H3 : stress_tests_finished (self s3)
               = stress_tests_finished (self s)).
  { subst s3. cbn -[tick]. now rewrite (undisturbed_tick _ Hu). }
  unfold bind at 1. unfold measure_time at 1, external at 1.
  destruct (fault E (ops s3)) as [e3|].
  { intros H. inversion H. cbn -[tick].
    now rewrite (undisturbed_tick _ Hu). }
  cbn -[tick]. discriminate.
Qed.

(** X5. [run_stress_tests] sets [stress_tests_finished] only after its
    measurements, with no [finally]: when a measurement raises (the flag
    being written by nobody else) the call raises with the flag still
    unset and both threads started, and the producer thread, when it
    runs from that state, emits every row of its ten seconds of data. *)
Theorem failed_stress_test_leaves_the_producer_running
  (E E' : Env) (c : DBClient) (f u : PyVal) (s : St) (e : PyExc) :
  undisturbed E -> undisturbed E' ->
  wps (self s) <> 0%Z ->
  fault E (ops s) = None ->
  fst (run_stress_tests E c f u s) = Raise e ->
  let s' := snd (run_stress_tests E c f u s) in
  let data := test_data E (ops s) (10 * wps (self s)) in
  stress_tests_finished (self s') = false
  /\ (exists consumer,
        threads s'
        = threads s ++ [ProduceThread data (1 / inject_Z (wps (self s)));
                        ConsumeThread consumer])
  /\ map snd (emissions
                (new_events (run_thread E' (List.length (threads s))) s'))
     = data.
Proof.
  intros Hu Hu' Hw F0 Hraise s' data.
  destruct (run_stress_tests_started E c f u s Hw F0)
    as (s4 & Heq & Hth & Hflag & _).
  assert (Hs' : s' = snd (stress_measurements E c f u s4))
    by (subst s'; now rewrite Heq).
  rewrite Heq in Hraise.
  assert (Hflag' : stress_tests_finished (self s') = false).
  { rewrite Hs'.
    destruct (stress_measurements E c f u s4) as [r sx] eqn:Hm.
    cbn [fst] in Hraise. subst r. cbn [snd].
    rewrite (@stress_measurements_failure_keeps_flag E c f u s4 e sx Hu Hm).
    exact Hflag. }
  assert (Hth' : threads s'
                 = threads s
                   ++ [ProduceThread data (1 / inject_Z (wps (self s)));
                       ConsumeThread
                         (mkClient (next_handle s) (dbms_name c))]).
  { rewrite Hs'.
    rewrite (stress_measurements_keeps_threads E c f u s4). exact Hth. }
  split; [exact Hflag'|]. split; [eexists; exact Hth'|].
  unfold new_events, run_thread.
  rewrite Hth'. rewrite nth_error_app2 by lia. rewrite Nat.sub_diag.
  cbn [nth_error thread_body].
  apply (produce_undisturbed (E := E')
           (1 / inject_Z (wps (self s))) data
           (with_threads
              (mark_scheduled (List.length (threads s))
                 (threads s ++
                  [ProduceThread data (1 / inject_Z (wps (self s)));
                   ConsumeThread (mkClient (next_handle s) (dbms_name c))]))
              s') Hu').
  exact Hflag'.
Qed.

Lemma failed_stress_test_leaves_the_producer_running_witness :
  let s' := snd (run_stress_tests flaky_env postgres (PyInt 1) (PyInt 2)
                   (suite_with 3 2 2 [])) in
  stress_tests_finished (self s') = false
  /\ List.length (emissions (new_events (run_thread calm_env 0) s'))
     = 20%nat.
Proof.
  assert (H := @failed_stress_test_leaves_the_producer_running
                 flaky_env calm_env postgres (PyInt 1) (PyInt 2)
                 (suite_with 3 2 2 []) (BackendError 1)
                 (fun n => eq_refl) (fun n => eq_refl)).
  cbv zeta in H.
  destruct H as (H1 & _ & H3).
  - discriminate.
  - reflexivity.
  - vm_compute. reflexivity.
  - cbv zeta. split; [exact H1|].
    change 0%nat with (List.length (threads (suite_with 3 2 2 []))) at 1.
    rewrite <- (length_map snd), H3. vm_compute. reflexivity.
Defined.

(** ** A suite configured with [wps = 0] *)

Lemma run_stress_tests_zero_wps (E : Env) c f u s :
  wps (self s) = 0%Z ->
  run_stress_tests E c f u s = (Raise ZeroDivisionError, s).
Proof.
  intros H. unfold run_stress_tests.
  unfold bind at 1. unfold bind at 1. unfold get_self at 1.
  unfold gen_test_data.
  unfold bind at 1. unfold bind at 1. unfold get_self at 1.
  unfold py_truediv_one. rewrite H. reflexivity.
Qed.

(** X6. The division [1 / self.wps] is evaluated only in the stress
    phase: with [wps = 0] a client's run raises [ZeroDivisionError], but
    only after the PREPARING and STATIC phases have done all their
    database work; no thread has been started by then. *)
Theorem zero_wps_fails_only_after_the_static_phase
  (E : Env) (c : DBClient) (s : St) :
  no_fault E -> generates_rows E ->
  (1 <= rows_count (self s))%Z ->
  wps (self s) = 0%Z ->
  exists f u more tail s1 x s2,
    test_data E (ops s) (rows_count (self s)) = (f :: u :: more) :: tail
    /\ prepare_database E c tail s = (Ok tt, s1)
    /\ run_static_tests E c f u s1 = (Ok x, s2)
    /\ run_client E c s = (Raise ZeroDivisionError, s2)
    /\ threads s2 = threads s
    /\ (forall cs, clients (self s) = c :: cs ->
        run E s = (Raise ZeroDivisionError, s2)).
Proof.
  intros Hnf Hgen Hrows Hwps.
  destruct (Hgen (ops s) (rows_count (self s)) Hrows)
    as (f & u & more & tail & Hdata).
  exists f, u, more, tail.
  set (k := fun (x : Q * Q * Q) (y z : Q * Q) =>
              let '(t1, t2, t3) := x in
              let '(t4, t5) := y in
              let '(t6, t7) := z in
              ret (mkResult (dbms_name c) t1 t2 t3 t4 t5 t6 t7)).
  set (phases :=
         prepare_database E c tail ;;;
         x <- run_static_tests E c f u ;;
         y <- run_stress_tests E c f u ;;
         z <- run_parallel_read_tests E c f u ;;
         k x y z).
  assert (Hrun : run_client E c s = phases s).
  { unfold run_client. unfold bind at 1. unfold get_self.
    unfold bind at 1. unfold gen_test_data. rewrite Hdata.
    unfold bind at 1. unfold py_next, ret at 1. cbn [fst snd].
    unfold bind at 1. unfold unpack_ids, ret at 1.
    reflexivity. }
  destruct (succeeds_prepare_database Hnf c tail s) as ([] & Hp).
  pose proof (phase_prepare_database (keeps_config_footstep E)
                (fun _ _ => I) (fun _ _ => I) c tail s) as C1.
  pose proof (phase_prepare_database (keeps_threads_footstep E)
                quiet_not_thread_start (fun _ _ => I) c tail s) as T1.
  destruct (prepare_database E c tail s) as [r1 s1] eqn:Hprep.
  simpl in Hp, C1, T1. subst r1.
  destruct (succeeds_run_static_tests Hnf c f u s1) as (x & Hx).
  pose proof (phase_run_static_tests (keeps_config_footstep E)
                (fun _ _ => I) (fun _ _ _ _ _ => I) c f u s1) as C2.
  pose proof (phase_run_static_tests (keeps_threads_footstep E)
                quiet_not_thread_start (fun _ _ _ _ _ => I) c f u s1) as T2.
  destruct (run_static_tests E c f u s1) as [r2 s2] eqn:Hstat.
  simpl in Hx, C2, T2. subst r2.
  assert (Hw2 : wps (self s2) = 0%Z).
  { destruct C1 as (_ & _ & _ & W1 & _). destruct C2 as (_ & _ & _ & W2 & _).
    congruence. }
  assert (Hphases : phases s = (Raise ZeroDivisionError, s2)).
  { unfold phases. unfold bind at 1. rewrite Hprep.
    unfold bind at 1. rewrite Hstat.
    unfold bind at 1.
    now rewrite (run_stress_tests_zero_wps E c f u s2 Hw2). }
  exists s1, x, s2.
  split; [exact Hdata|]. split; [reflexivity|]. split; [exact Hstat|].
  split; [now rewrite Hrun|].
  split; [unfold keeps_threads in *; congruence|].
  intros cs Hcs. unfold run.
  now rewrite Hcs, run_clients_cons, Hrun, Hphases.
Qed.

Lemma zero_wps_fails_only_after_the_static_phase_witness :
  fst (run calm_env (suite_with 3 0 2 [postgres])) = Raise ZeroDivisionError
  /\ threads (snd (run calm_env (suite_with 3 0 2 [postgres]))) = [].
Proof.
  destruct (@zero_wps_fails_only_after_the_static_phase calm_env postgres
              (suite_with 3 0 2 [postgres]))
    as (f & u & more & tail & s1 & x & s2 & _ & _ & _ & _ & Hth & Hrun).
  - intros n. reflexivity.
  - exact sample_data_generates_rows.
  - discriminate.
  - reflexivity.
  - rewrite (Hrun [] eq_refl). split; [reflexivity|exact Hth].
Defined.

(** ** A reader count that is not positive *)

(** X7. [range(n)] is empty and [ThreadPoolExecutor(n)] raises
    [ValueError] for [n <= 0]: the fan-out then raises before any copy
    is made and before the worker is ever called, leaving the state as
    it was; the parallel phase raises the same way, so its division by
    [readers_count] is never reached with a zero divisor. *)
Theorem nonpositive_readers_count_raises_value_error
  (E : Env) (c : DBClient) (f u : PyVal) (s : St) :
  (readers_count (self s) <= 0)%Z ->
  (forall m, run_in_parallel E c m (readers_count (self s)) s
             = (Raise ValueError, s))
  /\ run_parallel_read_tests E c f u s = (Raise ValueError, s).
Proof.
  intros Hn.
  assert (Hfan : forall m, run_in_parallel E c m (readers_count (self s)) s
                           = (Raise ValueError, s)).
  { intros m. unfold run_in_parallel.
    replace (Z.to_nat (readers_count (self s))) with 0%nat by lia.
    unfold bind at 1. cbn [copy_clients]. unfold ret at 1.
    unfold bind at 1. unfold new_pool.
    destruct (Z.leb_spec (readers_count (self s)) 0) as [_|H]; [|lia].
    reflexivity. }
  split; [exact Hfan|].
  unfold run_parallel_read_tests.
  unfold bind at 1. unfold bind at 1. unfold get_self at 1.
  now rewrite Hfan.
Qed.

Lemma nonpositive_readers_count_raises_value_error_witness :
  run_parallel_read_tests calm_env postgres (PyInt 1) (PyInt 2)
    (suite_with 3 1 0 [postgres])
  = (Raise ValueError, suite_with 3 1 0 [postgres]).
Proof.
  apply (@nonpositive_readers_count_raises_value_error calm_env postgres
           (PyInt 1) (PyInt 2) (suite_with 3 1 0 [postgres])).
  discriminate.
Defined.

(** ** A copy that fails *)

Lemma copy_clients_fails (E : Env) (c : DBClient) (e : PyExc) (n : nat) :
  forall k s,
    (k < n)%nat ->
    (forall i, (i < k)%nat -> fault E (ops s + i) = None) ->
    fault E (ops s + k) = Some e ->
    exists s',
      copy_clients E c n s = (Raise e, s')
      /\ log s'
         = log s ++ map (fun c' => EvCopy (handle c) (handle c'))
                        (clones_of c (next_handle s) k)
      /\ ops s' = S (ops s + k).
Proof.
  induction n as [|n IH]; intros k s Hk Hf He; [lia|].
  destruct k as [|k].
  - rewrite Nat.add_0_r in He.
    simpl. unfold bind at 1. unfold client_copy, external. rewrite He.
    eexists. split; [reflexivity|]. tick_simpl.
    rewrite app_nil_r. split; [reflexivity|lia].
  - assert (H0 : fault E (ops s) = None).
    { rewrite <- (Nat.add_0_r (ops s)). apply Hf. lia. }
    simpl. unfold bind at 1. unfold client_copy, external. rewrite H0.
    set (s1 := emit _ _).
    destruct (IH k s1) as (s' & Hrun & Hlog & Hops).
    + lia.
    + intros i Hi. subst s1. tick_simpl.
      replace (S (ops s + i))%nat with (ops s + S i)%nat by lia.
      apply Hf. lia.
    + subst s1. tick_simpl.
      replace (S (ops s + k))%nat with (ops s + S k)%nat by lia. exact He.
    + exists s'.
      assert (Hnh : next_handle s1 = S (next_handle s)) by reflexivity.
      rewrite Hnh in Hlog.
      unfold bind. tick_simpl. rewrite Hrun.
      split; [reflexivity|]. split.
      * rewrite Hlog. subst s1. tick_simpl. now rewrite <- app_assoc.
      * rewrite Hops. subst s1. tick_simpl. lia.
Qed.

(** X8. The copies are made one after the other before the pool exists:
    when the copy number [k] fails, the fan-out raises that error having
    made [k] copies and nothing else; no pool is created and the worker
    is called on none of the copies, which are left as they are. *)
Theorem failed_copy_aborts_before_the_pool
  (E : Env) (c : DBClient) (m : DBClient -> M Q) (n : Z) (k : nat)
  (e : PyExc) (s : St) :
  (k < Z.to_nat n)%nat ->
  (forall i, (i < k)%nat -> fault E (ops s + i) = None) ->
  fault E (ops s + k) = Some e ->
  fst (run_in_parallel E c m n s) = Raise e
  /\ new_events (run_in_parallel E c m n) s
     = map (fun c' => EvCopy (handle c) (handle c'))
           (clones_of c (next_handle s) k)
  /\ ops (snd (run_in_parallel E c m n s)) = S (ops s + k).
Proof.
  intros Hk Hf He.
  destruct (@copy_clients_fails E c e (Z.to_nat n) k s Hk Hf He)
    as (s' & Hrun & Hlog & Hops).
  assert (Heq : run_in_parallel E c m n s = (Raise e, s')).
  { unfold run_in_parallel. unfold bind at 1. now rewrite Hrun. }
  unfold new_events. rewrite Heq. cbn [fst snd].
  split; [reflexivity|]. split; [|exact Hops].
  rewrite Hlog. apply skipn_length_app.
Qed.

Lemma failed_copy_aborts_before_the_pool_witness :
  fst (run_in_parallel flaky_env postgres
         (measure_retrieve_most_viewed flaky_env) 7 empty_world)
  = Raise (BackendError 1)
  /\ new_events (run_in_parallel flaky_env postgres
                   (measure_retrieve_most_viewed flaky_env) 7) empty_world
     = [EvCopy 100 300; EvCopy 100 301; EvCopy 100 302; EvCopy 100 303].
Proof.
  destruct (@failed_copy_aborts_before_the_pool flaky_env postgres
              (measure_retrieve_most_viewed flaky_env) 7 4
              (BackendError 1) empty_world)
    as (H1 & H2 & _).
  - vm_compute. lia.
  - intros i Hi.
    do 4 (destruct i as [|i]; [reflexivity|]). lia.
  - reflexivity.
  - split; [exact H1|]. rewrite H2. reflexivity.
Defined.

(** ** Test data that cannot seed a run *)

(** X9. [run] takes the first generated row and unpacks its first two
    fields before anything else: when the generator yields nothing a
    client's run raises [RuntimeError] (the [StopIteration] of [next]
    inside a generator), when the first row has fewer than two fields it
    raises [ValueError]; either way nothing has been done to the
    database, and the state is as it was. *)
Theorem unusable_test_data_fails_before_the_database
  (E : Env) (c : DBClient) (s : St) :
  let data := test_data E (ops s) (rows_count (self s)) in
  (data = [] -> run_client E c s = (Raise RuntimeError, s))
  /\ (forall row tail,
        data = row :: tail -> (List.length row < 2)%nat ->
        run_client E c s = (Raise ValueError, s))
  /\ (forall r s', run_client E c s = (Ok r, s') ->
        exists f u more tail, data = (f :: u :: more) :: tail).
Proof.
  intros data. subst data.
  assert (Hstart :
            run_client E c s
            = (first <- py_next (test_data E (ops s) (rows_count (self s))) ;;
               ids <- unpack_ids (fst first) ;;
               prepare_database E c (snd first) ;;;
               x <- run_static_tests E c (fst ids) (snd ids) ;;
               y <- run_stress_tests E c (fst ids) (snd ids) ;;
               z <- run_parallel_read_tests E c (fst ids) (snd ids) ;;
               (let '(t1, t2, t3) := x in
                let '(t4, t5) := y in
                let '(t6, t7) := z in
                ret (mkResult (dbms_name c) t1 t2 t3 t4 t5 t6 t7))) s).
  { unfold run_client. unfold bind at 1. unfold get_self at 1.
    unfold bind at 1. unfold gen_test_data at 1. reflexivity. }
  rewrite Hstart. clear Hstart.
  destruct (test_data E (ops s) (rows_count (self s)))
    as [|[|f [|u more]] tail].
  - split; [reflexivity|]. split; discriminate.
  - split; [discriminate|]. split; [reflexivity|discriminate].
  - split; [discriminate|]. split; [reflexivity|discriminate].
  - split; [discriminate|]. split.
    + intros row tl H Hlen. inversion H. subst. simpl in Hlen. lia.
    + intros _ _ _. now exists f, u, more, tail.
Qed.

(** ** Connection scopes of the main thread *)

Lemma scoped_app (a b : list Event) :
  scoped a -> scoped b -> scoped (a ++ b).
Proof.
  intros Ha Hb. induction Ha as [|e evs He Ha IH|h body evs Hbody Ha IH].
  - exact Hb.
  - simpl. now apply scoped_outside.
  - simpl. rewrite <- app_assoc. simpl. now apply scoped_connection.
Qed.

Lemma in_scopes_footstep (E : Env) : Footstep E outside_ok in_scopes.
Proof.
  constructor.
  - intros s. exists []. rewrite app_nil_r. split; [reflexivity|constructor].
  - intros s1 s2 s3 (e1 & H1 & F1) (e2 & H2 & F2).
    exists (e1 ++ e2). rewrite H2, H1, app_assoc. split; auto.
    now apply scoped_app.
  - intros s. exists []. rewrite tick_log, app_nil_r.
    split; [reflexivity|constructor].
  - intros e s He. exists [e]. simpl. split; [reflexivity|].
    apply scoped_outside; [exact He|constructor].
  - intros c s. exists []. simpl. rewrite app_nil_r.
    split; [reflexivity|constructor].
  - intros b s. exists []. simpl. rewrite app_nil_r.
    split; [reflexivity|constructor].
  - intros h s. exists []. simpl. rewrite app_nil_r.
    split; [reflexivity|constructor].
  - intros t s Ht. eexists [_]. simpl. split; [reflexivity|].
    apply scoped_outside; [exact Ht|constructor].
Qed.

Lemma never_hangs_ret {A} (a : A) : never_hangs (ret a).
Proof. intros s. discriminate. Qed.

Lemma never_hangs_bind {A B} (m : M A) (k : A -> M B) :
  never_hangs m -> (forall a, never_hangs (k a)) -> never_hangs (bind m k).
Proof.
  intros Hm Hk s. unfold bind. specialize (Hm s).
  destruct (m s) as [[a|e|] s1]; simpl in *;
    [apply Hk|discriminate|congruence].
Qed.

Lemma never_hangs_external (E : Env) {A} (a : St -> A) after :
  never_hangs (external E a after).
Proof. intros s. unfold external. destruct (fault E (ops s)); discriminate. Qed.

Lemma never_hangs_measure_time (E : Env) op c repeats :
  never_hangs (measure_time E op c repeats).
Proof. apply never_hangs_external. Qed.

Lemma never_hangs_time_sleep (E : Env) (d : Q) : never_hangs (time_sleep E d).
Proof. intros s. unfold time_sleep. destruct (Qle_bool 0 d); discriminate. Qed.

Lemma never_hangs_gen_test_data (E : Env) (n : Z) :
  never_hangs (gen_test_data E n).
Proof. intros s. discriminate. Qed.

Ltac no_hang :=
  repeat first
    [ apply never_hangs_ret
    | apply never_hangs_measure_time
    | apply never_hangs_external
    | apply never_hangs_time_sleep
    | apply never_hangs_gen_test_data
    | apply never_hangs_bind; [|intros] ].

(** The [with client.connect():] block: the scope is closed however its
    body ends. *)
Lemma scoped_with_connect (E : Env) {A} (c : DBClient) (body : M A) :
  steps (emits (inside_ok (handle c))) body ->
  never_hangs body ->
  steps in_scopes (with_connect E c body).
Proof.
  intros Hb Hn s. unfold with_connect, external.
  destruct (fault E (ops s)) as [e|]; cbn -[tick].
  - exists []. rewrite tick_log, app_nil_r. split; [reflexivity|constructor].
  - set (s1 := emit (EvConnect (handle c)) (tick E s)).
    specialize (Hb s1). specialize (Hn s1).
    assert (Hl1 : log s1 = log s ++ [EvConnect (handle c)]).
    { subst s1. cbn -[tick]. now rewrite tick_log. }
    destruct (body s1) as [[a|e|] s2]; cbn [fst snd] in *; [| |congruence].
    + destruct Hb as (evs & Hlog & Hin).
      exists (EvConnect (handle c) :: evs ++ [EvRelease (handle c)]).
      split; [|apply scoped_connection; [exact Hin|constructor]].
      cbn [log emit]. rewrite Hlog, Hl1, <- !app_assoc. reflexivity.
    + destruct Hb as (evs & Hlog & Hin).
      exists (EvConnect (handle c) :: evs ++ [EvRelease (handle c)]).
      split; [|apply scoped_connection; [exact Hin|constructor]].
      cbn [log emit]. rewrite Hlog, Hl1, <- !app_assoc. reflexivity.
Qed.

Ltac in_scope_body E c :=
  steps_auto (emits_footstep E (inside_ok (handle c)));
  intros; simpl; auto.

Lemma scoped_prepare_database (E : Env) c rows :
  steps in_scopes (prepare_database E c rows).
Proof.
  unfold prepare_database.
  apply (steps_bind (in_scopes_footstep E)).
  - apply scoped_with_connect; [in_scope_body E c|no_hang].
  - intros _. apply (steps_time_sleep (in_scopes_footstep E)). exact I.
Qed.

Lemma scoped_run_static_tests (E : Env) c f u :
  steps in_scopes (run_static_tests E c f u).
Proof.
  unfold run_static_tests.
  apply scoped_with_connect; [in_scope_body E c|no_hang].
Qed.

Lemma scoped_run_stress_tests (E : Env) c f u :
  steps in_scopes (run_stress_tests E c f u).
Proof.
  unfold run_stress_tests.
  apply (steps_bind (in_scopes_footstep E));
    [steps_auto (in_scopes_footstep E)|]. intros data.
  apply (steps_bind (in_scopes_footstep E));
    [steps_auto (in_scopes_footstep E)|]. intros period.
  apply (steps_bind (in_scopes_footstep E));
    [apply (steps_client_copy (in_scopes_footstep E)); intros; exact I|].
  intros consumer.
  apply (steps_bind (in_scopes_footstep E));
    [apply (steps_set_flag (in_scopes_footstep E))|]. intros _.
  apply (steps_bind (in_scopes_footstep E));
    [apply (steps_start_thread (in_scopes_footstep E)); intros; exact I|].
  intros _.
  apply (steps_bind (in_scopes_footstep E));
    [apply (steps_start_thread (in_scopes_footstep E)); intros; exact I|].
  intros _.
  apply (steps_bind (in_scopes_footstep E));
    [apply (steps_time_sleep (in_scopes_footstep E)); exact I|].
  intros _.
  apply (steps_bind (in_scopes_footstep E)).
  - apply scoped_with_connect; [in_scope_body E c|no_hang].
  - intros r.
    apply (steps_bind (in_scopes_footstep E));
      [apply (steps_set_flag (in_scopes_footstep E))|]. intros _.
    apply (steps_ret (in_scopes_footstep E)).
Qed.

Lemma scoped_run_in_parallel (E : Env) c (m : DBClient -> M Q) n :
  (forall c', steps in_scopes (m c')) ->
  steps in_scopes (run_in_parallel E c m n).
Proof.
  intros Hm.
  apply (steps_run_in_parallel (in_scopes_footstep E));
    try (intros; exact I). exact Hm.
Qed.

Lemma scoped_run_parallel_read_tests (E : Env) c f u :
  steps in_scopes (run_parallel_read_tests E c f u).
Proof.
  unfold run_parallel_read_tests.
  apply (steps_bind (in_scopes_footstep E)).
  { apply (steps_bind (in_scopes_footstep E));
      [apply (steps_get_self (in_scopes_footstep E))|]. intros n.
    apply scoped_run_in_parallel. intros c'.
    unfold measure_retrieve_last_timecode.
    apply scoped_with_connect; [in_scope_body E c'|no_hang]. }
  intros r1.
  apply (steps_bind (in_scopes_footstep E));
    [steps_auto (in_scopes_footstep E)|]. intros t1.
  apply (steps_bind (in_scopes_footstep E)).
  { apply (steps_bind (in_scopes_footstep E));
      [apply (steps_get_self (in_scopes_footstep E))|]. intros n.
    apply scoped_run_in_parallel. intros c'.
    unfold measure_retrieve_most_viewed.
    apply scoped_with_connect; [in_scope_body E c'|no_hang]. }
  intros r2.
  apply (steps_bind (in_scopes_footstep E));
    [steps_auto (in_scopes_footstep E)|]. intros t2.
  apply (steps_ret (in_scopes_footstep E)).
Qed.

Lemma scoped_run_client (E : Env) c : steps in_scopes (run_client E c).
Proof.
  unfold run_client.
  apply (steps_bind (in_scopes_footstep E));
    [apply (steps_get_self (in_scopes_footstep E))|]. intros n.
  apply (steps_bind (in_scopes_footstep E));
    [apply (steps_gen_test_data (in_scopes_footstep E))|]. intros d.
  apply (steps_bind (in_scopes_footstep E));
    [apply (steps_py_next (in_scopes_footstep E))|]. intros first.
  apply (steps_bind (in_scopes_footstep E));
    [apply (steps_unpack_ids (in_scopes_footstep E))|]. intros ids.
  apply (steps_bind (in_scopes_footstep E));
    [apply scoped_prepare_database|]. intros _.
  apply (steps_bind (in_scopes_footstep E));
    [apply scoped_run_static_tests|]. intros [[t1 t2] t3].
  apply (steps_bind (in_scopes_footstep E));
    [apply scoped_run_stress_tests|]. intros [t4 t5].
  apply (steps_bind (in_scopes_footstep E));
    [apply scoped_run_parallel_read_tests|]. intros [t6 t7].
  apply (steps_ret (in_scopes_footstep E)).
Qed.

Lemma scoped_run_clients (E : Env) cs : steps in_scopes (run_clients E cs).
Proof.
  induction cs as [|c cs IH]; simpl;
    [apply (steps_ret (in_scopes_footstep E))|].
  apply (steps_bind (in_scopes_footstep E)); [apply scoped_run_client|].
  intros r.
  apply (steps_bind (in_scopes_footstep E));
    [apply (steps_yield (in_scopes_footstep E)); exact I|]. intros _.
  apply (steps_bind (in_scopes_footstep E)); [exact IH|]. intros rs.
  apply (steps_ret (in_scopes_footstep E)).
Qed.

Lemma on_handle_app h tr1 tr2 :
  on_handle h (tr1 ++ tr2) = on_handle h tr1 ++ on_handle h tr2.
Proof. apply filter_app. Qed.

Lemma on_handle_inside h body :
  Forall (inside_ok h) body -> Forall (database_op h) (on_handle h body).
Proof.
  induction 1 as [|e body He Hb IH]; [constructor|].
  destruct e; simpl in He; try contradiction; simpl; try exact IH;
    subst; rewrite Nat.eqb_refl; constructor; simpl; auto.
Qed.

Lemma on_handle_inside_other h h' body :
  h' <> h -> Forall (inside_ok h') body -> on_handle h body = [].
Proof.
  intros Hne. induction 1 as [|e body He Hb IH]; [reflexivity|].
  destruct e; simpl in He; try contradiction; simpl; try exact IH;
    subst; (destruct (Nat.eqb_spec h' h); [contradiction|exact IH]).
Qed.

Lemma scoped_on_handle h tr : scoped tr -> sessions h (on_handle h tr).
Proof.
  induction 1 as [|e evs He Hs IH|h' body evs Hb Hs IH].
  - constructor.
  - destruct e; simpl in He; try contradiction; simpl; exact IH.
  - change (EvConnect h' :: body ++ EvRelease h' :: evs)
      with ([EvConnect h'] ++ body ++ [EvRelease h'] ++ evs).
    rewrite !on_handle_app. simpl.
    destruct (Nat.eqb_spec h' h) as [->|Hne].
    + simpl. constructor; [now apply on_handle_inside|exact IH].
    + rewrite (on_handle_inside_other Hne Hb). exact IH.
Qed.

(** X10. Whatever fails and wherever, on every handle the trace of [run]
    is a sequence of closed sessions: each [prepare], [insert] and
    measurement made on a handle, by the main thread or by a pool worker,
    comes after a [connect] of that handle and before its [release], the
    handle is not connected again before it is released, and each
    connection opened is released, also on the paths that raise.  The
    statement is about each handle on its own, every handle being used
    by one thread: it holds as well of every trace that has the same
    events on each handle, in whatever order the workers of a pool
    run. *)
Theorem run_closes_every_connection_scope (E : Env) (s : St) (h : nat) :
  sessions h (on_handle h (new_events (run E) s))
  /\ (forall tr',
        (forall h', on_handle h' tr' = on_handle h' (new_events (run E) s)) ->
        sessions h (on_handle h tr')).
Proof.
  assert (Hs : sessions h (on_handle h (new_events (run E) s))).
  { apply scoped_on_handle.
    destruct (scoped_run_clients E (clients (self s)) s)
      as (evs & Hlog & Hsc).
    unfold new_events, run. rewrite Hlog.
    now rewrite skipn_length_app. }
  split; [exact Hs|].
  intros tr' Hsame. now rewrite Hsame.
Qed.
